(** * rep: the cell agent's HTTP client, and two start-up behaviours

    The main part embeds [client.go] (package [rep]): the request
    construction through [rata], the two [*http.Client] pointers held by
    the [client] struct, and the five operations [State], [Perform],
    [Reset], [StopLRPInstance] and [CancelTask].

    Two behaviours of the agent that [cmd/rep/main_test.go] exercises,
    but whose implementation is not part of these sources, are modelled
    from the specification: the validation of the CA certificate bundle
    at start-up and the first tick of the bulk reconciler.  Their
    definitions are marked as such. *)

From Stdlib Require Import ZArith String Ascii List Bool Lia DecimalString DecimalZ.
From stdpp Require Import gmap strings list fin_maps.
Import ListNotations.

Local Open Scope string_scope.
Local Open Scope Z_scope.

(* ===================================================================== *)
(** ** Go values used by the client *)
(* ===================================================================== *)

Module Go.

(** Go's [error] interface, observed through its [Error()] string. *)
Definition error := string.

(** A Go [(T, error)] return pair: exactly one side is meaningful. *)
Inductive result (A : Type) : Type :=
| Ok (a : A)
| Err (e : error).
Arguments Ok {A} a.
Arguments Err {A} e.

(** [strconv.Itoa] / the [%d] verb: decimal rendering with a leading
    minus sign for negative numbers. *)
Definition Itoa (z : Z) : string := NilEmpty.string_of_int (Z.to_int z).

(** [strings.Split(s, sep)] for a one-byte separator. *)
Fixpoint Split (sep : ascii) (s : string) : list string :=
  match s with
  | EmptyString => [EmptyString]
  | String c rest =>
      if Ascii.eqb c sep then EmptyString :: Split sep rest
      else match Split sep rest with
           | h :: t => String c h :: t
           | [] => [String c EmptyString]
           end
  end.

(** [strings.Join(elems, sep)]. *)
Fixpoint Join (elems : list string) (sep : string) : string :=
  match elems with
  | [] => EmptyString
  | [x] => x
  | x :: rest => x ++ sep ++ Join rest sep
  end.

(** [strings.TrimLeft(s, cutset)] for a one-byte cutset. *)
Fixpoint TrimLeft (s : string) (cut : ascii) : string :=
  match s with
  | String c rest => if Ascii.eqb c cut then TrimLeft rest cut else s
  | EmptyString => EmptyString
  end.

(** The substring relation behind gomega's [ContainSubstring]. *)
Definition Contains (s sub : string) : Prop :=
  exists pre post, s = pre ++ sub ++ post.





(** [strings.HasPrefix], as a proposition. *)
Definition HasPrefix (s prefix : string) : Prop := exists rest, s = prefix ++ rest.

End Go.
Import Go.

(* ===================================================================== *)
(** ** net/http as the client sees it *)
(* ===================================================================== *)

Module Http.

Definition StatusOK : Z := 200.
Definition StatusAccepted : Z := 202.
Definition StatusNotFound : Z := 404.
Definition StatusInternalServerError : Z := 500.

(** [*http.Request]: method, absolute URL, header map and optional body. *)
Record Request : Type := mkRequest {
  Method : string;
  URL : string;
  Header : gmap string (list string);
  Body : option string
}.

(** [req.Header.Set(key, value)]; the keys used here are canonical already. *)
Definition Header_Set (req : Request) (key value : string) : Request :=
  {| Method := Method req; URL := URL req;
     Header := <[key := [value]]> (Header req); Body := Body req |}.

(** [*http.Response], reduced to the fields the client reads. *)
Record Response : Type := mkResponse {
  StatusCode : Z;
  RespBody : string
}.

(** An [http.Client] value: its [Timeout] (a [time.Duration], in
    nanoseconds) and what a round trip through it yields, namely a
    transport error or the peer's response. *)
Record Client : Type := mkClient {
  Timeout : Z;
  RoundTrip : Request -> result Response
}.

(** A [*http.Client]: [None] is the nil pointer. *)
Definition ClientPtr := option nat.

(** What the outside world can observe of a call. *)
Inductive event : Type :=
| EvDo (via : nat) (req : Request)
| EvBodyClose (via : nat).

(** The heap of [http.Client] objects together with the trace of the
    observable events so far. *)
Record World : Type := mkWorld {
  heap : gmap nat Client;
  trace : list event
}.

Definition emit (w : World) (evs : list event) : World :=
  {| heap := heap w; trace := trace w ++ evs |}.

(** The outcome of running a method: it returns (with the world it
    leaves behind) or it panics on a nil pointer dereference. *)
Inductive run (A : Type) : Type :=
| Returns (a : A) (w : World)
| Panics.
Arguments Returns {A} a w.
Arguments Panics {A}.

(** The [Do] method of [http.Client]: dereferences the receiver, performs the round
    trip and records it. *)
Definition Do (p : ClientPtr) (req : Request) (w : World) : run (result Response) :=
  match p with
  | None => Panics
  | Some a =>
      match heap w !! a with
      | None => Panics
      | Some hc => Returns (RoundTrip hc req) (emit w [EvDo a req])
      end
  end.

(** The deferred [resp.Body.Close()] of a response obtained through [p]. *)
Definition bodyClose (p : ClientPtr) : list event :=
  match p with
  | Some a => [EvBodyClose a]
  | None => []
  end.

(** The requests among a list of events, each with the client it went through. *)
Definition requests (evs : list event) : list (nat * Request) :=
  flat_map (fun e => match e with
                     | EvDo a req => [(a, req)]
                     | EvBodyClose _ => []
                     end) evs.

(** The requests issued between the world [w] and a later world [w']. *)
Definition requestsSince (w w' : World) : list (nat * Request) :=
  requests (skipn (length (trace w)) (trace w')).

(** Between [w] and [w'] the clients on the heap were left as they
    were, the trace only grew, and at most one request was issued. *)
Definition oneCallAtMost (w w' : World) : Prop :=
  heap w' = heap w
  /\ exists evs : list event,
       trace w' = (trace w ++ evs)%list /\ (length (requests evs) <= 1)%nat.

End Http.
Import Http.

(* ===================================================================== *)
(** ** github.com/tedsuo/rata: named routes and request generation *)
(* ===================================================================== *)

Module Rata.

(** [rata.Params]: a [map[string]string] from path keys to values. *)
Abbreviation Params := (gmap string string).

(** [rata.Route]. *)
Record Route : Type := mkRoute {
  Name : string;
  RMethod : string;
  Path : string
}.

(** [rata.Routes] is a slice of routes. *)
Definition Routes := list Route.

(** [Routes.FindRouteByName]: the first route carrying the name. *)
Fixpoint FindRouteByName (rs : Routes) (name : string) : option Route :=
  match rs with
  | [] => None
  | r :: rest => if String.eqb (Name r) name then Some r else FindRouteByName rest name
  end.

(** The loop of [Route.CreatePath] over the [/]-separated components:
    a component [:key] is replaced by [params[key]], and a key absent
    from the map aborts with [missing param :key]. *)
Fixpoint fill (params : Params) (components : list string) : result (list string) :=
  match components with
  | [] => Ok []
  | c :: rest =>
      match c with
      | EmptyString =>
          match fill params rest with
          | Ok rest' => Ok (c :: rest')
          | Err e => Err e
          end
      | String c0 key =>
          if Ascii.eqb c0 ":"%char then
            match params !! key with
            | None => Err ("missing param " ++ c)
            | Some val =>
                match fill params rest with
                | Ok rest' => Ok (val :: rest')
                | Err e => Err e
                end
            end
          else
            match fill params rest with
            | Ok rest' => Ok (c :: rest')
            | Err e => Err e
            end
      end
  end.

(** [rata.RequestGenerator]. *)
Record RequestGenerator : Type := mkRequestGenerator {
  GHeader : gmap string (list string);
  host : string;
  routes : Routes
}.

(** [rata.NewRequestGenerator]: the header map starts out empty. *)
Definition NewRequestGenerator (h : string) (rs : Routes) : RequestGenerator :=
  {| GHeader := ∅; host := h; routes := rs |}.

Section WithNetLibraries.

(** [url.Parse] followed by [URL.String]: the normalised rendering of
    a path, or the parser's error. *)
Variable url_Parse_String : string -> result string.

(** The checks of [http.NewRequest] on the method and on the URL:
    [None] when the request can be built. *)
Variable NewRequest_check : string -> string -> option error.

(** [Route.CreatePath]. *)
Definition CreatePath (r : Route) (params : Params) : result string :=
  match fill params (Split "/"%char (Path r)) with
  | Err e => Err e
  | Ok components => url_Parse_String (Join components "/")
  end.

(** [http.NewRequest]. *)
Definition NewRequest (method url : string) (body : option string) : result Request :=
  match NewRequest_check method url with
  | Some e => Err e
  | None => Ok {| Method := method; URL := url; Header := ∅; Body := body |}
  end.

(** [RequestGenerator.CreateRequest].  The closing loop gives every
    header key of the generator an empty slice and copies the values
    into it, which copies nothing. *)
Definition CreateRequest (g : RequestGenerator) (name : string)
    (params : Params) (body : option string) : result Request :=
  match FindRouteByName (routes g) name with
  | None => Err ("No route exists with the name " ++ name)
  | Some route =>
      match CreatePath route params with
      | Err e => Err e
      | Ok path =>
          let url := host g ++ "/" ++ TrimLeft path "/"%char in
          match NewRequest (RMethod route) url body with
          | Err e => Err e
          | Ok req =>
              Ok {| Method := Method req; URL := URL req;
                    Header := ((fun _ => []) <$> GHeader g) ∪ Header req;
                    Body := Body req |}
          end
      end
  end.

End WithNetLibraries.

End Rata.
Import Rata.

(* ===================================================================== *)
(** ** bbs/models: the two keys of an actual LRP *)
(* ===================================================================== *)

Module Models.

(** [models.ActualLRPKey]; [Index] is an [int32]. *)
Record ActualLRPKey : Type := NewActualLRPKey {
  ProcessGuid : string;
  Index : Z;
  Domain : string
}.

(** [models.ActualLRPInstanceKey]. *)
Record ActualLRPInstanceKey : Type := NewActualLRPInstanceKey {
  InstanceGuid : string;
  CellId : string
}.

End Models.
Import Models.

(* ===================================================================== *)
(** ** package rep: routes.go (not among the sources) and client.go *)
(* ===================================================================== *)

Module Rep.

(** Modelled from the spec: the route names and the [Routes] table live
    in routes.go, which is missing; the methods and paths are those of
    the HTTP surface table (section 6), with the path parameters under
    the keys that [client.go] passes to [rata].  The values of the name
    constants are not visible: any distinct strings behave alike.  The
    simulation route of [Reset], which the table does not list, is given
    the path [/sim/reset]. *)
Definition StateRoute : string := "STATE".
Definition PerformRoute : string := "PERFORM".
Definition StopLRPInstanceRoute : string := "StopLRPInstance".
Definition CancelTaskRoute : string := "CancelTask".
Definition Sim_ResetRoute : string := "RESET".

(** Modelled from the spec: see [StateRoute]. *)
Definition Routes : Rata.Routes :=
  [ {| Name := StateRoute; RMethod := "GET"; Path := "/state" |};
    {| Name := PerformRoute; RMethod := "POST"; Path := "/work" |};
    {| Name := StopLRPInstanceRoute; RMethod := "POST";
       Path := "/v1/lrps/:process_guid/instances/:instance_guid/stop" |};
    {| Name := CancelTaskRoute; RMethod := "POST";
       Path := "/v1/tasks/:task_guid/cancel" |};
    {| Name := Sim_ResetRoute; RMethod := "POST"; Path := "/sim/reset" |} ].

(** [type client struct]. *)
Record client : Type := mkclient {
  client_ : ClientPtr;
  stateClient : ClientPtr;
  address : string;
  requestGenerator : RequestGenerator
}.

(** [NewClient]. *)
Definition NewClient (httpClient stateClient : ClientPtr) (address : string) : client :=
  {| client_ := httpClient;
     stateClient := stateClient;
     address := address;
     requestGenerator := NewRequestGenerator address Routes |}.

(** [type clientFactory struct] with [NewClientFactory] as constructor. *)
Record clientFactory : Type := NewClientFactory {
  f_httpClient : ClientPtr;
  f_stateClient : ClientPtr
}.

(** [clientFactory.CreateClient]. *)
Definition CreateClient (factory : clientFactory) (address : string) : client :=
  NewClient (f_httpClient factory) (f_stateClient factory) address.

(** [client.SetStateClient]: the assignment to the field, with the
    updated struct as result. *)
Definition SetStateClient (c : client) (sc : ClientPtr) : client :=
  {| client_ := client_ c;
     stateClient := sc;
     address := address c;
     requestGenerator := requestGenerator c |}.

(** [client.StateClientTimeout]: reads through the [stateClient] pointer. *)
Definition StateClientTimeout (c : client) (w : World) : run Z :=
  match stateClient c with
  | None => Panics
  | Some a =>
      match heap w !! a with
      | None => Panics
      | Some hc => Returns (Timeout hc) w
      end
  end.

(** [stopParamsFromLRP]. *)
Definition stopParamsFromLRP (key : ActualLRPKey) (instanceKey : ActualLRPInstanceKey)
    : Params :=
  <["process_guid" := ProcessGuid key]>
    (<["instance_guid" := InstanceGuid instanceKey]>
       (<["index" := Itoa (Index key)]> ∅)).

(** The [rata.Params] literal of [CancelTask]. *)
Definition cancelParams (taskGuid : string) : Params :=
  <["task_guid" := taskGuid]> ∅.

Section WithLibraries.

Variable url_Parse_String : string -> result string.
Variable NewRequest_check : string -> string -> option error.

(** [http.StatusText]. *)
Variable StatusText : Z -> string.

(** [CellState] and [Work] with their JSON codecs. *)
Variables CellState Work : Type.
Variable decode_CellState : string -> result CellState.
Variable decode_Work : string -> result Work.
Variable Marshal_Work : Work -> result string.

Let CreateRequest := Rata.CreateRequest url_Parse_String NewRequest_check.

(** The message of the [fmt.Errorf] shared by [State], [Perform] and [Reset]. *)
Definition unexpectedStatus (code : Z) : error :=
  "unexpected status code: " ++ Itoa code.

(** The message of the [fmt.Errorf] of [StopLRPInstance] and [CancelTask]. *)
Definition httpError (code : Z) : error :=
  "http error: status code " ++ Itoa code ++ " (" ++ StatusText code ++ ")".

(** [client.State]. *)
Definition State (c : client) (w : World) : run (result CellState) :=
  match CreateRequest (requestGenerator c) StateRoute ∅ None with
  | Err err => Returns (Err err) w
  | Ok req =>
      match Do (stateClient c) req w with
      | Panics => Panics
      | Returns (Err err) w1 => Returns (Err err) w1
      | Returns (Ok resp) w1 =>
          let w2 := emit w1 (bodyClose (stateClient c)) in
          if negb (StatusCode resp =? StatusOK) then
            Returns (Err (unexpectedStatus (StatusCode resp))) w2
          else
            match decode_CellState (RespBody resp) with
            | Err err => Returns (Err err) w2
            | Ok state => Returns (Ok state) w2
            end
      end
  end.

(** [client.Perform]. *)
Definition Perform (c : client) (work : Work) (w : World) : run (result Work) :=
  match Marshal_Work work with
  | Err err => Returns (Err err) w
  | Ok body =>
      match CreateRequest (requestGenerator c) PerformRoute ∅ (Some body) with
      | Err err => Returns (Err err) w
      | Ok req =>
          match Do (client_ c) req w with
          | Panics => Panics
          | Returns (Err err) w1 => Returns (Err err) w1
          | Returns (Ok resp) w1 =>
              let w2 := emit w1 (bodyClose (client_ c)) in
              if negb (StatusCode resp =? StatusOK) then
                Returns (Err (unexpectedStatus (StatusCode resp))) w2
              else
                match decode_Work (RespBody resp) with
                | Err err => Returns (Err err) w2
                | Ok failedWork => Returns (Ok failedWork) w2
                end
          end
      end
  end.

(** The tail shared by the three methods that return a bare [error]:
    send through the regular client, close the body, compare the status. *)
Definition send (c : client) (req : Request) (w : World)
    (expected : Z) (mkerr : Z -> error) : run (option error) :=
  match Do (client_ c) req w with
  | Panics => Panics
  | Returns (Err err) w1 => Returns (Some err) w1
  | Returns (Ok resp) w1 =>
      let w2 := emit w1 (bodyClose (client_ c)) in
      if negb (StatusCode resp =? expected) then
        Returns (Some (mkerr (StatusCode resp))) w2
      else Returns None w2
  end.

(** [client.Reset]. *)
Definition Reset (c : client) (w : World) : run (option error) :=
  match CreateRequest (requestGenerator c) Sim_ResetRoute ∅ None with
  | Err err => Returns (Some err) w
  | Ok req => send c req w StatusOK unexpectedStatus
  end.

(** [client.StopLRPInstance]. *)
Definition StopLRPInstance (c : client) (key : ActualLRPKey)
    (instanceKey : ActualLRPInstanceKey) (w : World) : run (option error) :=
  match CreateRequest (requestGenerator c) StopLRPInstanceRoute
          (stopParamsFromLRP key instanceKey) None with
  | Err err => Returns (Some err) w
  | Ok req =>
      let req := Header_Set req "Content-Type" "application/json" in
      send c req w StatusAccepted httpError
  end.

(** [client.CancelTask]. *)
Definition CancelTask (c : client) (taskGuid : string) (w : World) : run (option error) :=
  match CreateRequest (requestGenerator c) CancelTaskRoute (cancelParams taskGuid) None with
  | Err err => Returns (Some err) w
  | Ok req => send c req w StatusAccepted httpError
  end.

End WithLibraries.

(** The cell answers [req], sent through the regular client of [c], with
    the HTTP status [status]. *)
Definition responds (c : client) (w : World) (req : Request) (status : Z) : Prop :=
  exists a hc resp,
    client_ c = Some a /\ heap w !! a = Some hc /\
    RoundTrip hc req = Ok resp /\ StatusCode resp = status.



(** Every pointer a client holds is nil or points into the heap, as
    pointers of a running program do. *)
Definition wellFormed (c : client) (w : World) : Prop :=
  (forall a, client_ c = Some a -> is_Some (heap w !! a))
  /\ (forall a, stateClient c = Some a -> is_Some (heap w !! a)).

End Rep.

(* ===================================================================== *)
(** ** cmd/rep/main_test.go: the helper that selects tasks by state *)
(* ===================================================================== *)

Module MainTest.

(** [models.Task_State]. *)
Inductive Task_State : Type :=
| Task_Invalid | Task_Pending | Task_Running | Task_Completed | Task_Resolving.

#[export] Instance Task_State_eq_dec : EqDecision Task_State.
Proof. solve_decision. Defined.

(** [models.Task], reduced to the fields the suite reads. *)
Record Task : Type := mkTask {
  TaskGuid : string;
  State : Task_State;
  Failed : bool
}.

(** [getTasksByState], once [client.Tasks] has returned [tasks] without
    error: the loop appends to [filteredTasks], which starts out empty,
    every task whose state is the one asked for. *)
Definition getTasksByState (tasks : list Task) (state : Task_State) : list Task :=
  fold_left (fun filteredTasks task =>
               if bool_decide (State task = state)
               then (filteredTasks ++ [task])%list
               else filteredTasks)
            tasks [].

End MainTest.

(* ===================================================================== *)
(** ** Start-up validation of the CA certificate bundle *)
(* ===================================================================== *)

Module Startup.

(** How the launch of the agent ends as far as the bundle is concerned:
    either start-up carries on, or the process exits with a code after
    logging a message. *)
Inductive outcome : Type :=
| Starts
| Exits (code : Z) (logged : string).





Section WithX509.

(** Whether the body of a PEM block decodes to an X.509 certificate. *)
Variable parseCertificate : list string -> bool.



End WithX509.

End Startup.

(* ===================================================================== *)
(** ** Placement keys and the cell's ledger of allocations *)
(* ===================================================================== *)

Module Ledger.

(** Modelled from the spec: resources.go is missing; section 3 gives
    the triple of non-negative integers. *)
Record Resources : Type := mkResources {
  MemoryMB : Z;
  DiskMB : Z;
  Containers : Z
}.

(** Modelled from the spec: [PlacementKey] (section 3), an LRP instance
    or a task. *)
Inductive PlacementKey : Type :=
| LRPKey (processGuid : string) (index : Z)
| TaskKey (taskGuid : string).

#[export] Instance PlacementKey_eq_dec : EqDecision PlacementKey.
Proof. solve_decision. Defined.

Inductive AllocationState : Type :=
| Reserved | Initialising | Created | Running | Completed.

(** Modelled from the spec: [Allocation] (section 3); [ReservedAt] is
    the tick at which the ledger entry was made, used for the
    reconciler's grace period. *)
Record Allocation : Type := mkAllocation {
  Key : PlacementKey;
  AResources : Resources;
  RootFS : string;
  Stack : string;
  AInstanceGuid : string;
  AState : AllocationState;
  ReservedAt : Z
}.

End Ledger.

(* ===================================================================== *)
(** ** The bulk reconciler *)
(* ===================================================================== *)

Module Reconciler.
Import Ledger.

Inductive LifecycleClass : Type := app | task | healthcheck.

(** Modelled from the spec: the backend adapter is missing; this is the
    [Container] of section 3: the tags carry the lifecycle class and the
    placement key; a container that the cell did not create carries
    neither.  [CreatedAt] is in polling intervals, like every time here. *)
Record Container : Type := mkContainer {
  Handle : string;
  Class : option LifecycleClass;
  CKey : option PlacementKey;
  CInstanceGuid : string;
  Terminated : bool;
  ExitFailed : bool;
  CreatedAt : Z
}.

Definition isHealthcheck (c : Container) : bool :=
  match Class c with Some healthcheck => true | _ => false end.

(** Modelled from the spec: the record-store adapter is missing; an
    actual LRP of the record store (section 4.3).  [Owner] is the
    instance key [(instance guid, cell id)] of the cell that claims it,
    if any. *)
Record ActualLRP : Type := mkActualLRP {
  LProcessGuid : string;
  LIndex : Z;
  Owner : option (string * string)
}.

Inductive TaskState : Type := Pending | TRunning | TCompleted | Resolving.

(** Modelled from the spec: a task of the record store (sections 4.3
    and 8.4), the adapter being missing. *)
Record Task : Type := mkTask {
  TaskGuid : string;
  TCellID : string;
  TState : TaskState;
  Failed : bool;
  FailureReason : string
}.

Record Store : Type := mkStore {
  ActualLRPs : list ActualLRP;
  Tasks : list Task
}.

(** Modelled from the spec: the three sources of truth that the
    reconciler of section 4.7 compares (backend, record store, ledger),
    with the clock and whether the coming tick is the first. *)
Record Cell : Type := mkCell {
  cellID : string;
  backend : list Container;
  store : Store;
  ledger : list Allocation;
  now : Z;
  firstTick : bool
}.

(** The grace period [G_e]: one polling interval (design note (b)). *)
Definition grace : Z := 1.

Definition lrpKey (l : ActualLRP) : PlacementKey := LRPKey (LProcessGuid l) (LIndex l).
Definition taskKey (t : Task) : PlacementKey := TaskKey (TaskGuid t).

Definition keyIs (k : PlacementKey) (o : option PlacementKey) : bool :=
  bool_decide (o = Some k).

Definition ownedBy (cell : string) (l : ActualLRP) : bool :=
  match Owner l with
  | Some (_, c) => String.eqb c cell
  | None => false
  end.

Definition claimedBy (cell : string) (t : Task) : bool := String.eqb (TCellID t) cell.

(** Modelled from the spec: step 1 of section 4.7, the snapshot of the
    backend's containers, healthcheck containers excluded, and of the
    record-store entries claimed by this cell. *)
Definition containers (c : Cell) : list Container :=
  List.filter (fun x => negb (isHealthcheck x)) (backend c).

Definition claims (c : Cell) : list ActualLRP :=
  List.filter (ownedBy (cellID c)) (ActualLRPs (store c)).

Definition tasks (c : Cell) : list Task :=
  List.filter (claimedBy (cellID c)) (Tasks (store c)).

Definition backendHas (c : Cell) (k : PlacementKey) : bool :=
  existsb (fun x => keyIs k (CKey x)) (containers c).

Definition storeHas (c : Cell) (k : PlacementKey) : bool :=
  existsb (fun l => bool_decide (lrpKey l = k)) (claims c)
  || existsb (fun t => bool_decide (taskKey t = k)) (tasks c).

(** Modelled from the spec: step 2 of section 4.7, the six buckets as
    first defined, before the tie-break. *)
Definition extraContainers0 (c : Cell) : list Container :=
  List.filter (fun x => match CKey x with
                        | Some k => negb (storeHas c k)
                        | None => true
                        end) (containers c).

Definition orphanedAllocations0 (c : Cell) : list Allocation :=
  List.filter (fun a => negb (backendHas c (Key a)) && (grace <=? now c - ReservedAt a))
    (ledger c).

Definition missingContainers0 (c : Cell) : list ActualLRP :=
  List.filter (fun l => negb (backendHas c (lrpKey l))) (claims c).

Definition mismatches (l : ActualLRP) (x : Container) : bool :=
  keyIs (lrpKey l) (CKey x)
  && match Owner l with
     | Some (ig, _) => negb (String.eqb ig (CInstanceGuid x))
     | None => false
     end.

Definition mismatchedInstances0 (c : Cell) : list ActualLRP :=
  List.filter (fun l => existsb (mismatches l) (containers c)) (claims c).

Definition completedContainers0 (c : Cell) : list Container :=
  List.filter Terminated (containers c).

Definition staleTasks0 (c : Cell) : list Task :=
  List.filter (fun t => negb (backendHas c (taskKey t))) (tasks c).

(** Modelled from the spec: at most once per tick per key (section
    4.7): a bucket keeps an entry only if no bucket earlier in the list
    holds its key (for a container without a key, its handle). *)
Definition holdsKey (keys : list PlacementKey) (k : PlacementKey) : bool :=
  existsb (fun k' => bool_decide (k' = k)) keys.

Definition containerKeys (xs : list Container) : list PlacementKey :=
  flat_map (fun x => match CKey x with Some k => [k] | None => [] end) xs.

Definition extraContainers (c : Cell) : list Container := extraContainers0 c.

Definition keys1 (c : Cell) : list PlacementKey := containerKeys (extraContainers c).

Definition orphanedAllocations (c : Cell) : list Allocation :=
  List.filter (fun a => negb (holdsKey (keys1 c) (Key a))) (orphanedAllocations0 c).

Definition keys2 (c : Cell) : list PlacementKey :=
  keys1 c ++ map Key (orphanedAllocations c).

Definition missingContainers (c : Cell) : list ActualLRP :=
  List.filter (fun l => negb (holdsKey (keys2 c) (lrpKey l))) (missingContainers0 c).

Definition keys3 (c : Cell) : list PlacementKey :=
  keys2 c ++ map lrpKey (missingContainers c).

Definition mismatchedInstances (c : Cell) : list ActualLRP :=
  List.filter (fun l => negb (holdsKey (keys3 c) (lrpKey l))) (mismatchedInstances0 c).

Definition keys4 (c : Cell) : list PlacementKey :=
  keys3 c ++ map lrpKey (mismatchedInstances c).

Definition completedContainers (c : Cell) : list Container :=
  List.filter (fun x => match CKey x with
                        | Some k => negb (holdsKey (keys4 c) k)
                        | None => negb (existsb (fun y => String.eqb (Handle y) (Handle x))
                                          (extraContainers c))
                        end) (completedContainers0 c).

Definition keys5 (c : Cell) : list PlacementKey :=
  keys4 c ++ containerKeys (completedContainers c).

Definition staleTasks (c : Cell) : list Task :=
  List.filter (fun t => negb (holdsKey (keys5 c) (taskKey t))) (staleTasks0 c).

(** Modelled from the spec: step 3 of section 4.7, the corrective actions. *)
Inductive Action : Type :=
| Destroy (handle : string)
| ReleaseAllocation (k : PlacementKey)
| CrashActualLRP (processGuid : string) (index : Z)
| RemoveActualLRP (processGuid : string) (index : Z) (cell : string)
| CompleteTask (taskGuid : string) (failed : bool)
| FailTask (taskGuid : string) (reason : string).

Definition noContainer : string := "no-container".

Section WithReasons.

(** The failure reason given to the task of an orphaned allocation
    (section 4.7 leaves it at "as appropriate"). *)
Variable orphanReason : string.

Definition onExtra (c : Cell) (x : Container) : list Action :=
  if firstTick c || (grace <=? now c - CreatedAt x) then [Destroy (Handle x)] else [].

Definition onOrphaned (a : Allocation) : list Action :=
  ReleaseAllocation (Key a)
  :: match Key a with
     | LRPKey pg i => [CrashActualLRP pg i]
     | TaskKey tg => [FailTask tg orphanReason]
     end.

Definition onUnowned (c : Cell) (l : ActualLRP) : list Action :=
  [RemoveActualLRP (LProcessGuid l) (LIndex l) (cellID c)].

Definition onCompleted (x : Container) : list Action :=
  match CKey x with
  | Some (TaskKey tg) =>
      [CompleteTask tg (ExitFailed x); Destroy (Handle x); ReleaseAllocation (TaskKey tg)]
  | Some (LRPKey pg i) =>
      [CrashActualLRP pg i; Destroy (Handle x); ReleaseAllocation (LRPKey pg i)]
  | None => [Destroy (Handle x)]
  end.

Definition onStale (t : Task) : list Action := [FailTask (TaskGuid t) noContainer].

(** Modelled from the spec: the reconciler's implementation is missing;
    this is one tick of section 4.7: snapshot, diff into the six buckets
    in priority order, and the action list of each bucket, with the first
    tick destroying extra containers without waiting for the grace period. *)
Definition tick (c : Cell) : list Action :=
  flat_map (onExtra c) (extraContainers c)
  ++ flat_map onOrphaned (orphanedAllocations c)
  ++ flat_map (onUnowned c) (missingContainers c)
  ++ flat_map (onUnowned c) (mismatchedInstances c)
  ++ flat_map onCompleted (completedContainers c)
  ++ flat_map onStale (staleTasks c).

(** Modelled from the spec: the effect of an action on the backend
    (section 4.2): [Destroy] removes the container with that handle. *)
Definition applyBackend (a : Action) (xs : list Container) : list Container :=
  match a with
  | Destroy h => List.filter (fun x => negb (String.eqb (Handle x) h)) xs
  | _ => xs
  end.

(** The backend once the actions of the tick have been carried out, in order. *)
Definition backendAfter (c : Cell) : list Container :=
  fold_left (fun xs a => applyBackend a xs) (tick c) (backend c).

End WithReasons.

End Reconciler.

(* ===================================================================== *)
(** ** The fixtures of the suites *)
(* ===================================================================== *)

Module Fixtures.
Import Rep.

(** Paths made of unreserved characters are rendered unchanged, and the
    requests of the suites are well formed. *)
Definition renderPath (s : string) : result string := Ok s.
Definition checkPasses (_ _ : string) : option error := None.

Definition statusText (code : Z) : string :=
  if code =? 200 then "OK"
  else if code =? 202 then "Accepted"
  else if code =? 404 then "Not Found"
  else if code =? 500 then "Internal Server Error"
  else "".

(** A fake server that answers every request with [status]. *)
Definition answering (timeout status : Z) : Http.Client :=
  {| Timeout := timeout;
     RoundTrip := fun _ => Ok {| StatusCode := status; RespBody := "" |} |}.

Definition millisecond : Z := 1000000.

(** The regular client at address 1 and a state client with a timeout of
    100ms at address 2, as in [rep.NewClient(http.DefaultClient,
    cfhttp.NewCustomTimeoutClient(100*time.Millisecond), ...)]. *)
Definition world (status : Z) : World :=
  {| heap := <[1%nat := answering 0 status]>
               (<[2%nat := answering (100 * millisecond) status]> ∅);
     trace := [] |}.

Definition serverURL : string := "http://127.0.0.1:1800".

(** [rep.NewClient(cfhttp.NewClient(), nil, fakeServer.URL())] of client_test.go. *)
Definition testClient : client := NewClient (Some 1%nat) None serverURL.

(** The client of main_test.go, with both HTTP clients. *)
Definition auctionClient : client := NewClient (Some 1%nat) (Some 2%nat) serverURL.

Definition someKey : ActualLRPKey := NewActualLRPKey "some-process-guid" 2 "test-domain".
Definition someInstanceKey : ActualLRPInstanceKey :=
  NewActualLRPInstanceKey "some-instance-guid" "some-cell-id".


Definition stopURL : string :=
  "http://127.0.0.1:1800/v1/lrps/some-process-guid/instances/some-instance-guid/stop".

Definition stopRequest : Request :=
  {| Method := "POST"; URL := stopURL;
     Header := <["Content-Type" := ["application/json"]]> ∅; Body := None |}.

Definition cancelRequest : Request :=
  {| Method := "POST"; URL := "http://127.0.0.1:1800/v1/tasks/some-task-guid/cancel";
     Header := ∅; Body := None |}.

Definition stateRequest : Request :=
  {| Method := "GET"; URL := "http://127.0.0.1:1800/state"; Header := ∅; Body := None |}.

(** A server whose connections break: every round trip ends in [EOF]. *)
Definition broken : Http.Client :=
  {| Timeout := 0; RoundTrip := fun _ => Err "EOF" |}.

Definition brokenWorld : World :=
  {| heap := <[1%nat := broken]> (<[2%nat := broken]> ∅); trace := [] |}.


End Fixtures.

Module StartupFixtures.
Import Startup.




End StartupFixtures.

Module ReconcilerFixtures.
Import Ledger Reconciler.

Definition theCell : string := "the-cell-id".

(** A container the cell knows nothing about: no tags at all. *)
Definition unknownContainer (handle : string) : Container :=
  {| Handle := handle; Class := None; CKey := None; CInstanceGuid := "";
     Terminated := false; ExitFailed := false; CreatedAt := 0 |}.

Definition healthcheckContainer : Container :=
  {| Handle := "executor-healthcheck-0a1b"; Class := Some healthcheck; CKey := None;
     CInstanceGuid := ""; Terminated := false; ExitFailed := false; CreatedAt := 0 |}.

Definition emptyStore : Store := {| ActualLRPs := []; Tasks := [] |}.

(** "when starting": the backend lists [cnr1] and [cnr2], the store is empty. *)
Definition startingCell : Cell :=
  {| cellID := theCell;
     backend := [unknownContainer "cnr1"; unknownContainer "cnr2"; healthcheckContainer];
     store := emptyStore; ledger := []; now := 0; firstTick := true |}.

Definition lostAllocation : string := "allocation-lost".

End ReconcilerFixtures.

(* ===================================================================== *)
(** ** Facts about client.go *)
(* ===================================================================== *)

Section ClientFacts.
Import Rep.

Variable url_Parse_String : string -> result string.
Variable NewRequest_check : string -> string -> option error.
Variable StatusText : Z -> string.
Variables CellState Work : Type.
Variable decode_CellState : string -> result CellState.
Variable decode_Work : string -> result Work.
Variable Marshal_Work : Work -> result string.

Local Abbreviation CreateRequest := (Rata.CreateRequest url_Parse_String NewRequest_check).
Local Abbreviation StopLRPInstance := (Rep.StopLRPInstance url_Parse_String NewRequest_check StatusText).
Local Abbreviation CancelTask := (Rep.CancelTask url_Parse_String NewRequest_check StatusText).
Local Abbreviation httpError := (Rep.httpError StatusText).

Lemma Contains_prefix (s t : string) : Contains (s ++ t) s.
Proof. exists "", t. reflexivity. Qed.

Lemma httpError_says_status (code : Z) :
  Contains (httpError code) ("http error: status code " ++ Itoa code).
Proof.
  unfold Rep.httpError.
  exists "", (" (" ++ StatusText code ++ ")").
  cbn [String.append]. reflexivity.
Qed.

(** What [send] does, by cases on the regular client's answer. *)
Lemma send_answered (c : client) (req : Request) (w : World) (expected : Z)
    (mkerr : Z -> error) (status : Z) :
  responds c w req status ->
  send c req w expected mkerr =
    Returns (if status =? expected then None else Some (mkerr status))
            (emit (emit w (match client_ c with Some a => [EvDo a req] | None => [] end))
                  (bodyClose (client_ c))).
Proof.
  intros (a & hc & resp & Ha & Hh & Hr & Hs).
  unfold send, Do. rewrite Ha, Hh, Hr, Hs.
  destruct (status =? expected); reflexivity.
Qed.

Lemma send_nil (c : client) (req : Request) (w w' : World) (expected : Z)
    (mkerr : Z -> error) :
  send c req w expected mkerr = Returns None w' -> responds c w req expected.
Proof.
  unfold send, Do, responds.
  destruct (client_ c) as [a|]; [|discriminate].
  destruct (heap w !! a) as [hc|] eqn:Hh; [|discriminate].
  destruct (RoundTrip hc req) as [resp|e] eqn:Hr; [|discriminate].
  destruct (Z.eqb_spec (StatusCode resp) expected) as [Heq|Hne]; cbn; [|discriminate].
  intros _. exists a, hc, resp. auto.
Qed.

(** The outcome of a method that builds a request, possibly decorates it,
    and hands it to [send] expecting 202. *)
Lemma accepted_or_error (c : client) (w : World) (built : result Request)
    (decorate : Request -> Request) (outcome : run (option error)) :
  outcome = match built with
            | Err err => Returns (Some err) w
            | Ok req => send c (decorate req) w StatusAccepted httpError
            end ->
  ((exists w', outcome = Returns None w') <->
   (exists req, built = Ok req /\ responds c w (decorate req) StatusAccepted))
  /\
  (forall req status,
     built = Ok req -> responds c w (decorate req) status -> status <> StatusAccepted ->
     (exists w', outcome = Returns (Some (httpError status)) w')
     /\ Contains (httpError status) ("http error: status code " ++ Itoa status)).
Proof.
  intros ->. split; [split|].
  - intros [w' H]. destruct built as [req|e]; [|discriminate].
    exists req. split; [reflexivity|]. eapply send_nil, H.
  - intros (req & -> & Hresp).
    rewrite (send_answered _ _ _ _ _ _ Hresp), Z.eqb_refl. eauto.
  - intros req status -> Hresp Hne. split; [|apply httpError_says_status].
    rewrite (send_answered _ _ _ _ _ _ Hresp).
    destruct (Z.eqb_spec status StatusAccepted); [contradiction|]. eauto.
Qed.

(** C1. For every actual-LRP key, instance key and task guid,
    [StopLRPInstance] and [CancelTask] return a nil error exactly when the
    request could be built and the cell answers it with 202 Accepted; and
    whenever the cell answers with any other status, they return the error
    ["http error: status code <status> (<status text>)"], whose message
    contains ["http error: status code "] followed by the status. *)
Theorem StopLRPInstance_CancelTask_status (c : client) (w : World) :
  (forall (key : ActualLRPKey) (instanceKey : ActualLRPInstanceKey),
     let built := CreateRequest (requestGenerator c) StopLRPInstanceRoute
                    (stopParamsFromLRP key instanceKey) None in
     let sent req := Header_Set req "Content-Type" "application/json" in
     ((exists w', StopLRPInstance c key instanceKey w = Returns None w') <->
      (exists req, built = Ok req /\ responds c w (sent req) StatusAccepted))
     /\
     (forall req status,
        built = Ok req -> responds c w (sent req) status -> status <> StatusAccepted ->
        (exists w', StopLRPInstance c key instanceKey w = Returns (Some (httpError status)) w')
        /\ Contains (httpError status) ("http error: status code " ++ Itoa status)))
  /\
  (forall taskGuid : string,
     let built := CreateRequest (requestGenerator c) CancelTaskRoute
                    (cancelParams taskGuid) None in
     ((exists w', CancelTask c taskGuid w = Returns None w') <->
      (exists req, built = Ok req /\ responds c w req StatusAccepted))
     /\
     (forall req status,
        built = Ok req -> responds c w req status -> status <> StatusAccepted ->
        (exists w', CancelTask c taskGuid w = Returns (Some (httpError status)) w')
        /\ Contains (httpError status) ("http error: status code " ++ Itoa status))).
Proof.
  split.
  - intros key instanceKey built sent.
    apply (accepted_or_error c w built sent). reflexivity.
  - intros taskGuid built.
    apply (accepted_or_error c w built (fun req => req)). reflexivity.
Qed.

Lemma requestsSince_emit (w : World) (evs : list event) :
  requestsSince w (emit w evs) = requests evs.
Proof.
  unfold requestsSince, emit. cbn [trace].
  now rewrite skipn_app, skipn_all, Nat.sub_diag.
Qed.

Lemma requestsSince_emit2 (w : World) (evs evs' : list event) :
  requestsSince w (emit (emit w evs) evs') = requests (evs ++ evs').
Proof.
  unfold requestsSince, emit. cbn [trace]. rewrite <- app_assoc.
  now rewrite skipn_app, skipn_all, Nat.sub_diag.
Qed.

Lemma requestsSince_refl (w : World) : requestsSince w w = [].
Proof. unfold requestsSince. now rewrite skipn_all. Qed.

(** Whatever [Do] returns, it has issued the one request through its receiver. *)
Lemma Do_requests (p : ClientPtr) (req : Request) (w w1 : World) (r : result Response) :
  Do p req w = Returns r w1 ->
  exists a hc, p = Some a /\ heap w !! a = Some hc /\ r = RoundTrip hc req
               /\ w1 = emit w [EvDo a req].
Proof.
  unfold Do. destruct p as [a|]; [|discriminate].
  destruct (heap w !! a) as [hc|] eqn:Hh; [|discriminate].
  intros [= <- <-]. eauto 6.
Qed.

Lemma requests_bodyClose (p : ClientPtr) (evs : list event) :
  requests (evs ++ bodyClose p) = requests evs.
Proof.
  unfold requests. rewrite flat_map_app.
  destruct p; cbn; now rewrite app_nil_r.
Qed.

Local Abbreviation State := (Rep.State url_Parse_String NewRequest_check CellState decode_CellState).
Local Abbreviation Perform :=
  (Rep.Perform url_Parse_String NewRequest_check Work decode_Work Marshal_Work).

(** [send] issues exactly its request, through the regular client. *)
Lemma send_requests (c : client) (req : Request) (w w' : World) (expected : Z)
    (mkerr : Z -> error) (r : option error) :
  send c req w expected mkerr = Returns r w' ->
  exists a, client_ c = Some a /\ requestsSince w w' = [(a, req)].
Proof.
  unfold send. destruct (Do (client_ c) req w) as [[resp|e] w1|] eqn:HDo; [| |discriminate].
  - destruct (Do_requests _ _ _ _ _ HDo) as (a & hc & Ha & _ & _ & ->).
    intros H. exists a. split; [assumption|].
    destruct (negb _); injection H as _ <-;
      now rewrite requestsSince_emit2, requests_bodyClose.
  - destruct (Do_requests _ _ _ _ _ HDo) as (a & hc & Ha & _ & _ & ->).
    intros [= _ <-]. exists a. split; [assumption|]. apply requestsSince_emit.
Qed.

(** [State] issues at most its request, and through the state client. *)
Lemma State_requests (c : client) (w w' : World) (r : result CellState) :
  State c w = Returns r w' ->
  match CreateRequest (requestGenerator c) StateRoute ∅ None with
  | Err _ => requestsSince w w' = []
  | Ok req => exists a, stateClient c = Some a /\ requestsSince w w' = [(a, req)]
  end.
Proof.
  unfold Rep.State.
  destruct (CreateRequest (requestGenerator c) StateRoute ∅ None) as [req|e].
  - destruct (Do (stateClient c) req w) as [[resp|e] w1|] eqn:HDo; [| |discriminate];
      destruct (Do_requests _ _ _ _ _ HDo) as (a & hc & Ha & _ & _ & ->);
      intros H; exists a; (split; [assumption|]).
    + destruct (negb _); [|destruct (decode_CellState _)]; injection H as _ <-;
        now rewrite requestsSince_emit2, requests_bodyClose.
    + injection H as _ <-. apply requestsSince_emit.
  - intros [= _ <-]. apply requestsSince_refl.
Qed.

Lemma State_returns (c : client) (w : World) (req : Request) (a : nat) (hc : Http.Client) :
  CreateRequest (requestGenerator c) StateRoute ∅ None = Ok req ->
  stateClient c = Some a -> heap w !! a = Some hc ->
  exists r w', State c w = Returns r w'.
Proof.
  intros Hreq Ha Hh. unfold Rep.State, Do. rewrite Hreq, Ha, Hh.
  destruct (RoundTrip hc req) as [resp|e]; [|eauto].
  destruct (negb _); [eauto|]. destruct (decode_CellState _); eauto.
Qed.

Lemma Perform_requests (c : client) (work : Work) (w w' : World) (r : result Work) :
  Perform c work w = Returns r w' ->
  forall a req, In (a, req) (requestsSince w w') -> client_ c = Some a.
Proof.
  unfold Rep.Perform.
  destruct (Marshal_Work work) as [body|e];
    [|intros [= _ <-] a req; now rewrite requestsSince_refl].
  destruct (CreateRequest _ _ _ _) as [req|e];
    [|intros [= _ <-] a req'; now rewrite requestsSince_refl].
  destruct (Do (client_ c) req w) as [[resp|e] w1|] eqn:HDo; [| |discriminate];
    destruct (Do_requests _ _ _ _ _ HDo) as (a & hc & Ha & _ & _ & ->); intros H a' req'.
  - assert (requestsSince w w' = [(a, req)]) as ->.
    { destruct (negb _); [|destruct (decode_Work _)]; injection H as _ <-;
        now rewrite requestsSince_emit2, requests_bodyClose. }
    intros [[= <- _]|[]]. assumption.
  - injection H as _ <-. rewrite requestsSince_emit. intros [[= <- _]|[]]. assumption.
Qed.

Lemma bare_requests (c : client) (w w' : World) (built : result Request)
    (decorate : Request -> Request) (expected : Z) (mkerr : Z -> error) (r : option error) :
  match built with
  | Err err => Returns (Some err) w
  | Ok req => send c (decorate req) w expected mkerr
  end = Returns r w' ->
  forall a req, In (a, req) (requestsSince w w') -> client_ c = Some a.
Proof.
  destruct built as [req|e].
  - intros H a req'. destruct (send_requests _ _ _ _ _ _ _ H) as (a0 & Ha0 & ->).
    intros [[= <- _]|[]]. assumption.
  - intros [= _ <-] a req. now rewrite requestsSince_refl.
Qed.

(** C2. [State] issues its request through the state client and through
    nothing else: every request it makes goes through the [stateClient]
    pointer, it makes exactly that one request whenever the request can
    be built and the pointer is live, and the regular client is left
    alone unless both fields hold the same pointer.  [Perform],
    [StopLRPInstance] and [CancelTask] issue their requests through the
    regular client, and [StateClientTimeout] reports the timeout of the
    client behind [stateClient]. *)
Theorem State_goes_through_stateClient (c : client) (w : World) :
  (forall r w', State c w = Returns r w' ->
     (forall a req, In (a, req) (requestsSince w w') -> stateClient c = Some a)
     /\ (forall b, client_ c = Some b -> stateClient c <> Some b ->
          ~ In b (map fst (requestsSince w w'))))
  /\ (forall req a hc,
        CreateRequest (requestGenerator c) StateRoute ∅ None = Ok req ->
        stateClient c = Some a -> heap w !! a = Some hc ->
        exists r w', State c w = Returns r w' /\ requestsSince w w' = [(a, req)])
  /\ (forall a hc, stateClient c = Some a -> heap w !! a = Some hc ->
        StateClientTimeout c w = Returns (Timeout hc) w)
  /\ (forall work r w', Perform c work w = Returns r w' ->
        forall a req, In (a, req) (requestsSince w w') -> client_ c = Some a)
  /\ (forall key instanceKey r w', StopLRPInstance c key instanceKey w = Returns r w' ->
        forall a req, In (a, req) (requestsSince w w') -> client_ c = Some a)
  /\ (forall taskGuid r w', CancelTask c taskGuid w = Returns r w' ->
        forall a req, In (a, req) (requestsSince w w') -> client_ c = Some a).
Proof.
  split; [|split; [|split; [|split; [|split]]]].
  - intros r w' Hrun. pose proof (State_requests _ _ _ _ Hrun) as Hs.
    destruct (CreateRequest _ _ _ _) as [req0|e].
    + destruct Hs as (a0 & Ha0 & Hs). rewrite Hs. split.
      * intros a req [[= <- _]|[]]. assumption.
      * intros b Hb Hne [<-|[]]. cbn in Hne. congruence.
    + rewrite Hs. split; [intros a req []|intros b _ _ []].
  - intros req a hc Hreq Ha Hh.
    destruct (State_returns _ _ _ _ _ Hreq Ha Hh) as (r & w' & Hrun).
    exists r, w'. split; [assumption|].
    pose proof (State_requests _ _ _ _ Hrun) as Hs. rewrite Hreq in Hs.
    destruct Hs as (a0 & Ha0 & ->). congruence.
  - intros a hc Ha Hh. unfold StateClientTimeout. now rewrite Ha, Hh.
  - intros work r w'. apply Perform_requests.
  - intros key instanceKey r w'. unfold Rep.StopLRPInstance.
    apply (bare_requests c w w' _ (fun req => Header_Set req _ _)).
  - intros taskGuid r w'. unfold Rep.CancelTask.
    apply (bare_requests c w w' _ (fun req => req)).
Qed.

Lemma stopParams_process_guid (key : ActualLRPKey) (instanceKey : ActualLRPInstanceKey) :
  stopParamsFromLRP key instanceKey !! "process_guid" = Some (ProcessGuid key).
Proof. unfold stopParamsFromLRP. apply lookup_insert_eq. Qed.

Lemma stopParams_instance_guid (key : ActualLRPKey) (instanceKey : ActualLRPInstanceKey) :
  stopParamsFromLRP key instanceKey !! "instance_guid" = Some (InstanceGuid instanceKey).
Proof.
  unfold stopParamsFromLRP.
  rewrite lookup_insert_ne by discriminate. apply lookup_insert_eq.
Qed.








End ClientFacts.

Section ClientExamples.
Import Rep Fixtures.

Local Abbreviation CreateRequest := (Rata.CreateRequest renderPath checkPasses).
Local Abbreviation StopLRPInstance := (Rep.StopLRPInstance renderPath checkPasses statusText).
Local Abbreviation CancelTask := (Rep.CancelTask renderPath checkPasses statusText).
Local Abbreviation State :=
  (Rep.State renderPath checkPasses unit (fun _ : string => Ok tt)).

(** The requests that the handlers of client_test.go verify. *)
Lemma stop_request_built :
  CreateRequest (requestGenerator testClient) StopLRPInstanceRoute
    (stopParamsFromLRP someKey someInstanceKey) None
  = Ok {| Method := "POST"; URL := stopURL; Header := ∅; Body := None |}.
Proof. vm_compute. reflexivity. Qed.

Lemma stop_request_sent :
  exists w', StopLRPInstance testClient someKey someInstanceKey (world 202) = Returns None w'
             /\ requestsSince (world 202) w' = [(1%nat, stopRequest)].
Proof. eexists. split; vm_compute; reflexivity. Qed.

Lemma cancel_request_sent :
  exists w', CancelTask testClient "some-task-guid" (world 202) = Returns None w'
             /\ requestsSince (world 202) w' = [(1%nat, cancelRequest)].
Proof. eexists. split; vm_compute; reflexivity. Qed.

(** With a nil state client, as in client_test.go, [State] panics. *)
Lemma State_nil_stateClient : State testClient (world 200) = Panics.
Proof. vm_compute. reflexivity. Qed.

(** After [SetStateClient], [State] goes through the new state client. *)
Lemma State_after_SetStateClient :
  exists r w', State (SetStateClient testClient (Some 2%nat)) (world 200) = Returns r w'
               /\ requestsSince (world 200) w' = [(2%nat, stateRequest)].
Proof. do 2 eexists. split; vm_compute; reflexivity. Qed.

Lemma fake_server_responds (c : client) (status : Z) (req : Request) :
  client_ c = Some 1%nat -> responds c (world status) req status.
Proof.
  intros Hc. exists 1%nat, (answering 0 status), {| StatusCode := status; RespBody := "" |}.
  split; [assumption|]. split; [apply lookup_insert_eq|]. split; reflexivity.
Qed.

(** The two cases of the suite for [StopLRPInstance]: 202 gives no
    error, 500 gives the error with the status in its message. *)
Lemma StopLRPInstance_CancelTask_status_witness :
  (exists w', StopLRPInstance testClient someKey someInstanceKey (world 202)
              = Returns None w')
  /\ (exists w', StopLRPInstance testClient someKey someInstanceKey (world 500)
                 = Returns (Some "http error: status code 500 (Internal Server Error)") w')
  /\ (exists w', CancelTask testClient "some-task-guid" (world 500)
                 = Returns (Some "http error: status code 500 (Internal Server Error)") w')
  /\ Contains "http error: status code 500 (Internal Server Error)"
              "http error: status code 500".
Proof.
  pose proof (StopLRPInstance_CancelTask_status renderPath checkPasses statusText
                testClient (world 202)) as [Hstop202 _].
  pose proof (StopLRPInstance_CancelTask_status renderPath checkPasses statusText
                testClient (world 500)) as [Hstop500 Hcancel500].
  destruct (Hstop202 someKey someInstanceKey) as [[_ Hnil] _].
  destruct (Hstop500 someKey someInstanceKey) as [_ Herr].
  destruct (Hcancel500 "some-task-guid") as [_ Hcerr].
  split; [|split; [|split]].
  - apply Hnil. eexists. split; [vm_compute; reflexivity|].
    apply fake_server_responds. reflexivity.
  - refine (proj1 (Herr _ 500 _ _ _)).
    + vm_compute. reflexivity.
    + apply fake_server_responds. reflexivity.
    + discriminate.
  - refine (proj1 (Hcerr _ 500 _ _ _)).
    + vm_compute. reflexivity.
    + apply fake_server_responds. reflexivity.
    + discriminate.
  - refine (proj2 (Herr _ 500 _ _ _)).
    + vm_compute. reflexivity.
    + apply fake_server_responds. reflexivity.
    + discriminate.
Defined.

(** The client of the auction suite: [State] travels through the client
    with the 100ms timeout, which is the timeout [StateClientTimeout] reports. *)
Lemma State_goes_through_stateClient_witness :
  (exists r w', State auctionClient (world 200) = Returns r w'
                /\ requestsSince (world 200) w' = [(2%nat, stateRequest)])
  /\ StateClientTimeout auctionClient (world 200) = Returns (100 * millisecond) (world 200).
Proof.
  pose proof (State_goes_through_stateClient renderPath checkPasses statusText unit unit
                (fun _ => Ok tt) (fun _ => Ok tt) (fun _ => Ok "")
                auctionClient (world 200)) as (_ & Hstate & Htimeout & _).
  split.
  - apply (Hstate stateRequest 2%nat (answering (100 * millisecond) 200)).
    + vm_compute. reflexivity.
    + reflexivity.
    + vm_compute. reflexivity.
  - apply (Htimeout 2%nat (answering (100 * millisecond) 200)).
    + reflexivity.
    + vm_compute. reflexivity.
Defined.


End ClientExamples.

(* ===================================================================== *)
(** ** Facts about start-up validation *)
(* ===================================================================== *)

Section StartupFacts.
Import Startup.

Variable parseCertificate : list string -> bool.


End StartupFacts.

Section StartupExamples.
Import Startup StartupFixtures.



End StartupExamples.

(* ===================================================================== *)
(** ** Facts about the bulk reconciler *)
(* ===================================================================== *)

Section ReconcilerFacts.
Import Ledger Reconciler.

Variable orphanReason : string.

Local Abbreviation tick := (Reconciler.tick orphanReason).
Local Abbreviation backendAfter := (Reconciler.backendAfter orphanReason).

Lemma holdsKey_In (keys : list PlacementKey) (k : PlacementKey) :
  holdsKey keys k = true <-> In k keys.
Proof.
  unfold holdsKey. rewrite existsb_exists. split.
  - intros (k' & Hin & Heq). apply bool_decide_eq_true in Heq. now subst.
  - intros Hin. exists k. split; [assumption|]. now apply bool_decide_eq_true.
Qed.

Lemma containerKeys_In (xs : list Container) (k : PlacementKey) :
  In k (containerKeys xs) <-> exists x, In x xs /\ CKey x = Some k.
Proof.
  unfold containerKeys. rewrite in_flat_map. split.
  - intros (x & Hin & Hk). exists x. split; [assumption|].
    destruct (CKey x) as [k'|]; [|contradiction].
    destruct Hk as [->|[]]. reflexivity.
  - intros (x & Hin & Hk). exists x. split; [assumption|]. rewrite Hk. now left.
Qed.

Lemma backendHas_true (c : Cell) (k : PlacementKey) :
  backendHas c k = true <-> exists x, In x (containers c) /\ CKey x = Some k.
Proof.
  unfold backendHas, keyIs. rewrite existsb_exists. split.
  - intros (x & Hin & Hk). apply bool_decide_eq_true in Hk. eauto.
  - intros (x & Hin & Hk). exists x. split; [assumption|]. now apply bool_decide_eq_true.
Qed.

Lemma backendHas_false (c : Cell) (k : PlacementKey) (x : Container) :
  backendHas c k = false -> In x (containers c) -> CKey x <> Some k.
Proof.
  intros Hno Hin Hk.
  assert (backendHas c k = true) as Hyes by (apply backendHas_true; eauto).
  congruence.
Qed.

Lemma containers_In (c : Cell) (x : Container) :
  In x (containers c) <-> In x (backend c) /\ isHealthcheck x = false.
Proof.
  unfold containers. rewrite filter_In. now rewrite negb_true_iff.
Qed.

(** ** Extra containers *)

Lemma extraContainers_In (c : Cell) (x : Container) :
  In x (backend c) -> isHealthcheck x = false ->
  (forall k, CKey x = Some k -> storeHas c k = false) ->
  In x (extraContainers c).
Proof.
  intros Hin Hhc Hstore. unfold extraContainers, extraContainers0.
  apply filter_In. split; [now apply containers_In|].
  destruct (CKey x) as [k|] eqn:Hk; [|reflexivity].
  now rewrite (Hstore k eq_refl).
Qed.

Lemma tick_extra (c : Cell) (x : Container) :
  In x (extraContainers c) ->
  firstTick c = true \/ grace <= now c - CreatedAt x ->
  In (Destroy (Handle x)) (tick c).
Proof.
  intros Hin Hwhen. unfold Reconciler.tick. apply in_or_app. left.
  apply in_flat_map. exists x. split; [assumption|]. unfold onExtra.
  destruct Hwhen as [->|Hold]; [now left|].
  apply Z.leb_le in Hold. rewrite Hold, orb_true_r. now left.
Qed.

(** The backend only ever loses containers to the actions of a tick. *)
Lemma applyBackend_subset (acts : list Action) (xs : list Container) (y : Container) :
  In y (fold_left (fun xs a => applyBackend a xs) acts xs) -> In y xs.
Proof.
  revert xs. induction acts as [|a rest IH]; intros xs; [trivial|].
  cbn [fold_left]. intros Hin. apply IH in Hin.
  destruct a; cbn [applyBackend] in Hin; try assumption.
  now apply filter_In in Hin.
Qed.

Lemma applyBackend_destroyed (acts : list Action) (xs : list Container) (h : string)
    (y : Container) :
  In (Destroy h) acts ->
  In y (fold_left (fun xs a => applyBackend a xs) acts xs) -> Handle y <> h.
Proof.
  revert xs. induction acts as [|a rest IH]; intros xs; [intros []|].
  intros [->|Hin]; cbn [fold_left].
  - intros Hy. apply applyBackend_subset in Hy. cbn [applyBackend] in Hy.
    apply filter_In in Hy. destruct Hy as [_ Hy].
    apply negb_true_iff in Hy. now apply String.eqb_neq in Hy.
  - now apply IH.
Qed.

(** C5. On the first tick after start-up the reconciler destroys every
    backend container that is not a healthcheck container and does not
    correspond to a record-store entry naming this cell: a [Destroy] of
    its handle is among the actions of that tick, and the handle is gone
    from the backend when the tick is over. *)
Theorem first_tick_destroys_unknown_containers (c : Cell) (x : Container) :
  firstTick c = true ->
  In x (backend c) -> isHealthcheck x = false ->
  (forall k, CKey x = Some k -> storeHas c k = false) ->
  In (Destroy (Handle x)) (tick c)
  /\ ~ In (Handle x) (map Handle (backendAfter c)).
Proof.
  intros Hfirst Hin Hhc Hstore.
  assert (In (Destroy (Handle x)) (tick c)) as Hact.
  { apply tick_extra; [now apply extraContainers_In | now left]. }
  split; [assumption|].
  intros Hgone. apply in_map_iff in Hgone. destruct Hgone as (y & Hh & Hy).
  unfold Reconciler.backendAfter in Hy.
  now apply (applyBackend_destroyed _ _ _ _ Hact Hy).
Qed.

End ReconcilerFacts.

Section ReconcilerExamples.
Import Ledger Reconciler ReconcilerFixtures.

Local Abbreviation tick := (Reconciler.tick lostAllocation).
Local Abbreviation backendAfter := (Reconciler.backendAfter lostAllocation).

(** The start-up scenario: [cnr1] and [cnr2] are destroyed by the first
    tick, and only the healthcheck container is left. *)
Lemma first_tick_destroys_unknown_containers_witness :
  (In (Destroy "cnr1") (tick startingCell)
   /\ ~ In "cnr1" (map Handle (backendAfter startingCell)))
  /\ (In (Destroy "cnr2") (tick startingCell)
      /\ ~ In "cnr2" (map Handle (backendAfter startingCell))).
Proof.
  split.
  - apply (first_tick_destroys_unknown_containers lostAllocation startingCell
             (unknownContainer "cnr1")).
    + reflexivity.
    + now left.
    + reflexivity.
    + intros k Hk. discriminate Hk.
  - apply (first_tick_destroys_unknown_containers lostAllocation startingCell
             (unknownContainer "cnr2")).
    + reflexivity.
    + right. now left.
    + reflexivity.
    + intros k Hk. discriminate Hk.
Defined.

Lemma first_tick_leaves_healthcheck :
  tick startingCell = [Destroy "cnr1"; Destroy "cnr2"]
  /\ backendAfter startingCell = [healthcheckContainer].
Proof. split; vm_compute; reflexivity. Qed.

End ReconcilerExamples.


(* ===================================================================== *)
(** ** More facts about client.go: errors, effects and composition *)
(* ===================================================================== *)

Section ClientCoverage.
Import Rep.

Variable url_Parse_String : string -> result string.
Variable NewRequest_check : string -> string -> option error.
Variable StatusText : Z -> string.
Variables CellState Work : Type.
Variable decode_CellState : string -> result CellState.
Variable decode_Work : string -> result Work.
Variable Marshal_Work : Work -> result string.

Local Abbreviation CreateRequest := (Rata.CreateRequest url_Parse_String NewRequest_check).
Local Abbreviation StopLRPInstance := (Rep.StopLRPInstance url_Parse_String NewRequest_check StatusText).
Local Abbreviation CancelTask := (Rep.CancelTask url_Parse_String NewRequest_check StatusText).
Local Abbreviation Reset := (Rep.Reset url_Parse_String NewRequest_check).
Local Abbreviation State := (Rep.State url_Parse_String NewRequest_check CellState decode_CellState).
Local Abbreviation Perform :=
  (Rep.Perform url_Parse_String NewRequest_check Work decode_Work Marshal_Work).
Local Abbreviation httpError := (Rep.httpError StatusText).

(** [send] when the round trip fails: the transport's error comes back
    and the body, there being none, is not closed. *)
Lemma send_failed (c : client) (req : Request) (w : World) (expected : Z)
    (mkerr : Z -> error) (a : nat) (hc : Http.Client) (e : error) :
  client_ c = Some a -> heap w !! a = Some hc -> RoundTrip hc req = Err e ->
  send c req w expected mkerr = Returns (Some e) (emit w [EvDo a req]).
Proof. intros Ha Hh Hr. unfold send, Do. now rewrite Ha, Hh, Hr. Qed.

(** [send] when the peer answers: request, then close. *)
Lemma send_closes (c : client) (req : Request) (w : World) (expected : Z)
    (mkerr : Z -> error) (a : nat) (hc : Http.Client) (resp : Response) :
  client_ c = Some a -> heap w !! a = Some hc -> RoundTrip hc req = Ok resp ->
  exists r, send c req w expected mkerr
            = Returns r (emit (emit w [EvDo a req]) [EvBodyClose a]).
Proof.
  intros Ha Hh Hr. unfold send, Do. rewrite Ha, Hh, Hr. cbn [bodyClose].
  destruct (negb _); eauto.
Qed.

(** X1. When the round trip through the HTTP client fails, every method
    returns the transport's error unchanged, having issued its one
    request and closed no body: [StopLRPInstance], [CancelTask], [Reset]
    and [Perform] for the regular client, [State] for the state client. *)
Theorem transport_error_is_returned (c : client) (w : World) (a : nat)
    (hc : Http.Client) (e : error) :
  heap w !! a = Some hc ->
  (client_ c = Some a ->
   (forall key instanceKey req,
      CreateRequest (requestGenerator c) StopLRPInstanceRoute
        (stopParamsFromLRP key instanceKey) None = Ok req ->
      RoundTrip hc (Header_Set req "Content-Type" "application/json") = Err e ->
      StopLRPInstance c key instanceKey w
      = Returns (Some e)
          (emit w [EvDo a (Header_Set req "Content-Type" "application/json")]))
   /\ (forall taskGuid req,
         CreateRequest (requestGenerator c) CancelTaskRoute (cancelParams taskGuid) None
         = Ok req ->
         RoundTrip hc req = Err e ->
         CancelTask c taskGuid w = Returns (Some e) (emit w [EvDo a req]))
   /\ (forall req,
         CreateRequest (requestGenerator c) Sim_ResetRoute ∅ None = Ok req ->
         RoundTrip hc req = Err e ->
         Reset c w = Returns (Some e) (emit w [EvDo a req]))
   /\ (forall work body req,
         Marshal_Work work = Ok body ->
         CreateRequest (requestGenerator c) PerformRoute ∅ (Some body) = Ok req ->
         RoundTrip hc req = Err e ->
         Perform c work w = Returns (Err e) (emit w [EvDo a req])))
  /\ (stateClient c = Some a ->
      forall req,
        CreateRequest (requestGenerator c) StateRoute ∅ None = Ok req ->
        RoundTrip hc req = Err e ->
        State c w = Returns (Err e) (emit w [EvDo a req])).
Proof.
  intros Hh. split.
  - intros Ha. split; [|split; [|split]].
    + intros key instanceKey req Hreq Hr. unfold Rep.StopLRPInstance. rewrite Hreq.
      now apply (send_failed c _ w _ _ a hc e).
    + intros taskGuid req Hreq Hr. unfold Rep.CancelTask. rewrite Hreq.
      now apply (send_failed c _ w _ _ a hc e).
    + intros req Hreq Hr. unfold Rep.Reset. rewrite Hreq.
      now apply (send_failed c _ w _ _ a hc e).
    + intros work body req Hm Hreq Hr. unfold Rep.Perform, Do.
      now rewrite Hm, Hreq, Ha, Hh, Hr.
  - intros Ha req Hreq Hr. unfold Rep.State, Do. now rewrite Hreq, Ha, Hh, Hr.
Qed.

(** X2. When the peer answers, whatever its status and whatever the
    decoding of its body gives, every method leaves behind exactly its
    request followed by one close of the response body. *)
Theorem response_body_is_closed (c : client) (w : World) (a : nat)
    (hc : Http.Client) (resp : Response) :
  heap w !! a = Some hc ->
  (client_ c = Some a ->
   (forall key instanceKey req,
      CreateRequest (requestGenerator c) StopLRPInstanceRoute
        (stopParamsFromLRP key instanceKey) None = Ok req ->
      RoundTrip hc (Header_Set req "Content-Type" "application/json") = Ok resp ->
      exists r, StopLRPInstance c key instanceKey w
                = Returns r (emit (emit w [EvDo a (Header_Set req "Content-Type"
                                                      "application/json")])
                                  [EvBodyClose a]))
   /\ (forall taskGuid req,
         CreateRequest (requestGenerator c) CancelTaskRoute (cancelParams taskGuid) None
         = Ok req ->
         RoundTrip hc req = Ok resp ->
         exists r, CancelTask c taskGuid w
                   = Returns r (emit (emit w [EvDo a req]) [EvBodyClose a]))
   /\ (forall req,
         CreateRequest (requestGenerator c) Sim_ResetRoute ∅ None = Ok req ->
         RoundTrip hc req = Ok resp ->
         exists r, Reset c w = Returns r (emit (emit w [EvDo a req]) [EvBodyClose a]))
   /\ (forall work body req,
         Marshal_Work work = Ok body ->
         CreateRequest (requestGenerator c) PerformRoute ∅ (Some body) = Ok req ->
         RoundTrip hc req = Ok resp ->
         exists r, Perform c work w
                   = Returns r (emit (emit w [EvDo a req]) [EvBodyClose a])))
  /\ (stateClient c = Some a ->
      forall req,
        CreateRequest (requestGenerator c) StateRoute ∅ None = Ok req ->
        RoundTrip hc req = Ok resp ->
        exists r, State c w = Returns r (emit (emit w [EvDo a req]) [EvBodyClose a])).
Proof.
  intros Hh. split.
  - intros Ha. split; [|split; [|split]].
    + intros key instanceKey req Hreq Hr. unfold Rep.StopLRPInstance. rewrite Hreq.
      now apply (send_closes c _ w _ _ a hc resp).
    + intros taskGuid req Hreq Hr. unfold Rep.CancelTask. rewrite Hreq.
      now apply (send_closes c _ w _ _ a hc resp).
    + intros req Hreq Hr. unfold Rep.Reset. rewrite Hreq.
      now apply (send_closes c _ w _ _ a hc resp).
    + intros work body req Hm Hreq Hr. unfold Rep.Perform, Do.
      rewrite Hm, Hreq, Ha, Hh, Hr. cbn [bodyClose].
      destruct (negb _); [eauto|]. destruct (decode_Work _); eauto.
  - intros Ha req Hreq Hr. unfold Rep.State, Do.
    rewrite Hreq, Ha, Hh, Hr. cbn [bodyClose].
    destruct (negb _); [eauto|]. destruct (decode_CellState _); eauto.
Qed.

(** X3. [Reset] returns a nil error exactly when its request could be
    built and the cell answers it with 200 OK; any other status, 202
    Accepted included, gives the error ["unexpected status code: <status>"]. *)
Theorem Reset_status (c : client) (w : World) :
  let built := CreateRequest (requestGenerator c) Sim_ResetRoute ∅ None in
  ((exists w', Reset c w = Returns None w') <->
   (exists req, built = Ok req /\ responds c w req StatusOK))
  /\ (forall req status,
        built = Ok req -> responds c w req status -> status <> StatusOK ->
        exists w', Reset c w = Returns (Some ("unexpected status code: " ++ Itoa status)) w')
  /\ (forall req,
        built = Ok req -> responds c w req StatusAccepted ->
        exists w', Reset c w = Returns (Some "unexpected status code: 202") w').
Proof.
  cbn zeta. unfold Rep.Reset.
  assert (forall req status,
            CreateRequest (requestGenerator c) Sim_ResetRoute ∅ None = Ok req ->
            responds c w req status -> status <> StatusOK ->
            exists w', match CreateRequest (requestGenerator c) Sim_ResetRoute ∅ None with
                       | Ok req => send c req w StatusOK unexpectedStatus
                       | Err err => Returns (Some err) w
                       end
                       = Returns (Some ("unexpected status code: " ++ Itoa status)) w')
    as Hother.
  { intros req status Hreq Hresp Hne. rewrite Hreq.
    rewrite (send_answered _ _ _ _ _ _ Hresp).
    destruct (Z.eqb_spec status StatusOK); [contradiction|]. eauto. }
  split; [split|split].
  - intros [w' H]. destruct (CreateRequest _ _ _ _) as [req|e]; [|discriminate].
    exists req. split; [reflexivity|]. eapply send_nil, H.
  - intros (req & -> & Hresp).
    rewrite (send_answered _ _ _ _ _ _ Hresp), Z.eqb_refl. eauto.
  - exact Hother.
  - intros req Hreq Hresp. apply (Hother req StatusAccepted Hreq Hresp). discriminate.
Qed.

(** X4. [State] returns a cell state exactly when its request could be
    built, the state client answers it with 200 OK and the body decodes
    to that state; on any other status the body is not looked at and the
    error is ["unexpected status code: <status>"]; on 200 with a body
    that does not decode, the error is the decoder's. *)
Theorem State_result (c : client) (w : World) :
  let built := CreateRequest (requestGenerator c) StateRoute ∅ None in
  (forall state,
     (exists w', State c w = Returns (Ok state) w') <->
     (exists req a hc resp,
        built = Ok req /\ stateClient c = Some a /\ heap w !! a = Some hc
        /\ RoundTrip hc req = Ok resp /\ StatusCode resp = StatusOK
        /\ decode_CellState (RespBody resp) = Ok state))
  /\ (forall req a hc resp,
        built = Ok req -> stateClient c = Some a -> heap w !! a = Some hc ->
        RoundTrip hc req = Ok resp ->
        (StatusCode resp <> StatusOK ->
         exists w', State c w
                    = Returns (Err ("unexpected status code: " ++ Itoa (StatusCode resp))) w')
        /\ (forall e, StatusCode resp = StatusOK ->
                      decode_CellState (RespBody resp) = Err e ->
                      exists w', State c w = Returns (Err e) w')).
Proof.
  cbn zeta. unfold Rep.State, Do. split.
  - intros state. split.
    + intros [w' H].
      destruct (CreateRequest _ _ _ _) as [req|e]; [|discriminate].
      destruct (stateClient c) as [a|]; [|discriminate].
      destruct (heap w !! a) as [hc|] eqn:Hh; [|discriminate].
      destruct (RoundTrip hc req) as [resp|e] eqn:Hr; [|discriminate].
      destruct (Z.eqb_spec (StatusCode resp) StatusOK) as [Hs|Hs]; cbn in H; [|discriminate].
      destruct (decode_CellState (RespBody resp)) as [st|e] eqn:Hd; [|discriminate].
      injection H as -> _. exists req, a, hc, resp. auto 10.
    + intros (req & a & hc & resp & -> & -> & -> & -> & Hs & ->).
      rewrite Hs. cbn. eauto.
  - intros req a hc resp -> -> -> ->. split.
    + intros Hs. destruct (Z.eqb_spec (StatusCode resp) StatusOK); [contradiction|].
      cbn. eauto.
    + intros e Hs ->. rewrite Hs. cbn. eauto.
Qed.

(** X5. [Perform] returns the failed work exactly when the work could be
    marshalled, the request carrying it as its body could be built, the
    regular client answers with 200 OK and the body decodes to that work;
    work that cannot be marshalled is refused before anything is sent,
    and any status but 200 gives ["unexpected status code: <status>"]. *)
Theorem Perform_result (c : client) (w : World) (work : Work) :
  (forall failedWork,
     (exists w', Perform c work w = Returns (Ok failedWork) w') <->
     (exists body req a hc resp,
        Marshal_Work work = Ok body
        /\ CreateRequest (requestGenerator c) PerformRoute ∅ (Some body) = Ok req
        /\ client_ c = Some a /\ heap w !! a = Some hc
        /\ RoundTrip hc req = Ok resp /\ StatusCode resp = StatusOK
        /\ decode_Work (RespBody resp) = Ok failedWork))
  /\ (forall e, Marshal_Work work = Err e -> Perform c work w = Returns (Err e) w)
  /\ (forall body req a hc resp,
        Marshal_Work work = Ok body ->
        CreateRequest (requestGenerator c) PerformRoute ∅ (Some body) = Ok req ->
        client_ c = Some a -> heap w !! a = Some hc ->
        RoundTrip hc req = Ok resp -> StatusCode resp <> StatusOK ->
        exists w', Perform c work w
                   = Returns (Err ("unexpected status code: " ++ Itoa (StatusCode resp))) w').
Proof.
  unfold Rep.Perform, Do. split; [|split].
  - intros failedWork. split.
    + intros [w' H].
      destruct (Marshal_Work work) as [body|e]; [|discriminate].
      destruct (CreateRequest _ _ _ _) as [req|e] eqn:Hreq; [|discriminate].
      destruct (client_ c) as [a|]; [|discriminate].
      destruct (heap w !! a) as [hc|] eqn:Hh; [|discriminate].
      destruct (RoundTrip hc req) as [resp|e] eqn:Hr; [|discriminate].
      destruct (Z.eqb_spec (StatusCode resp) StatusOK) as [Hs|Hs]; cbn in H; [|discriminate].
      destruct (decode_Work (RespBody resp)) as [fw|e] eqn:Hd; [|discriminate].
      injection H as -> _. exists body, req, a, hc, resp. auto 10.
    + intros (body & req & a & hc & resp & -> & -> & -> & -> & -> & Hs & ->).
      rewrite Hs. cbn. eauto.
  - intros e ->. reflexivity.
  - intros body req a hc resp -> -> -> -> -> Hs.
    destruct (Z.eqb_spec (StatusCode resp) StatusOK); [contradiction|]. cbn. eauto.
Qed.



(** X7. [SetStateClient] replaces the state client and nothing else: the
    last assignment wins, [StopLRPInstance], [CancelTask], [Reset] and
    [Perform] behave as before it, every request of [State] then goes
    through the new pointer, and [StateClientTimeout] reports the new
    client's timeout. *)
Theorem SetStateClient_effect (c : client) (sc sc' : ClientPtr) (w : World) :
  SetStateClient (SetStateClient c sc) sc' = SetStateClient c sc'
  /\ (forall key instanceKey,
        StopLRPInstance (SetStateClient c sc) key instanceKey w
        = StopLRPInstance c key instanceKey w)
  /\ (forall taskGuid, CancelTask (SetStateClient c sc) taskGuid w = CancelTask c taskGuid w)
  /\ Reset (SetStateClient c sc) w = Reset c w
  /\ (forall work, Perform (SetStateClient c sc) work w = Perform c work w)
  /\ (forall r w', State (SetStateClient c sc) w = Returns r w' ->
        forall a req, In (a, req) (requestsSince w w') -> sc = Some a)
  /\ (forall a hc, sc = Some a -> heap w !! a = Some hc ->
        StateClientTimeout (SetStateClient c sc) w = Returns (Timeout hc) w).
Proof.
  split; [reflexivity|]. split; [reflexivity|]. split; [reflexivity|].
  split; [reflexivity|]. split; [reflexivity|]. split.
  - intros r w' Hrun a req Hin.
    pose proof (State_requests url_Parse_String NewRequest_check CellState decode_CellState
                  _ _ _ _ Hrun) as Hs.
    cbn [requestGenerator SetStateClient stateClient] in Hs.
    destruct (Rata.CreateRequest _ _ _ _ _ _) as [req0|e].
    + destruct Hs as (a0 & Ha0 & Hs). rewrite Hs in Hin.
      destruct Hin as [[= <- _]|[]]. exact Ha0.
    + rewrite Hs in Hin. destruct Hin.
  - intros a hc -> Hh. unfold StateClientTimeout. cbn [SetStateClient stateClient].
    now rewrite Hh.
Qed.

Lemma stopParams_index (key : ActualLRPKey) (instanceKey : ActualLRPInstanceKey) :
  stopParamsFromLRP key instanceKey !! "index" = Some (Itoa (Index key)).
Proof.
  unfold stopParamsFromLRP.
  rewrite !lookup_insert_ne by discriminate. apply lookup_insert_eq.
Qed.

(** [strconv.Itoa] renders different integers differently. *)
Lemma Itoa_inj (z z' : Z) : Itoa z = Itoa z' -> z = z'.
Proof.
  unfold Itoa. intros H. apply DecimalZ.to_int_inj.
  assert (Some (Z.to_int z) = Some (Z.to_int z')) as Heq
    by (rewrite <- !NilEmpty.isi; now rewrite H).
  now injection Heq.
Qed.

(** X8. The parameters built by [stopParamsFromLRP] hold exactly the
    keys [process_guid], [instance_guid] and [index], and they identify
    the process guid, the instance guid and the index: two calls build
    the same parameters exactly when they agree on the three. *)
Theorem stopParamsFromLRP_identifies (key key' : ActualLRPKey)
    (instanceKey instanceKey' : ActualLRPInstanceKey) :
  (stopParamsFromLRP key instanceKey = stopParamsFromLRP key' instanceKey' <->
   ProcessGuid key = ProcessGuid key'
   /\ InstanceGuid instanceKey = InstanceGuid instanceKey'
   /\ Index key = Index key')
  /\ (forall k, is_Some (stopParamsFromLRP key instanceKey !! k) <->
                k = "process_guid" \/ k = "instance_guid" \/ k = "index").
Proof.
  split; [split|].
  - intros Heq.
    pose proof (f_equal (fun m : Params => m !! "process_guid") Heq) as Hpg.
    pose proof (f_equal (fun m : Params => m !! "instance_guid") Heq) as Hig.
    pose proof (f_equal (fun m : Params => m !! "index") Heq) as Hix.
    cbn beta in Hpg, Hig, Hix.
    rewrite !stopParams_process_guid in Hpg.
    rewrite !stopParams_instance_guid in Hig.
    rewrite !stopParams_index in Hix.
    injection Hpg as Hpg. injection Hig as Hig. injection Hix as Hix.
    auto using Itoa_inj.
  - intros (Hpg & Hig & Hix). unfold stopParamsFromLRP. now rewrite Hpg, Hig, Hix.
  - intros k. unfold stopParamsFromLRP. rewrite !lookup_insert.
    rewrite lookup_empty.
    repeat case_decide; subst; split; intros Hk; eauto;
      first [ now destruct Hk as [x Hx] | destruct Hk as [Hk|[Hk|Hk]]; congruence ].
Qed.

Lemma append_assoc (s t u : string) : ((s ++ t) ++ u = s ++ t ++ u)%string.
Proof.
  induction s as [|ch s IH]; [reflexivity|].
  change (String ch ((s ++ t) ++ u) = String ch (s ++ t ++ u))%string.
  now rewrite IH.
Qed.

(** Every request of the generator is addressed to its host. *)
Lemma CreateRequest_host (g : RequestGenerator) (name : string) (params : Params)
    (body : option string) (req : Request) :
  CreateRequest g name params body = Ok req -> HasPrefix (URL req) (host g ++ "/").
Proof.
  unfold Rata.CreateRequest, NewRequest.
  destruct (FindRouteByName _ _) as [route|]; [|discriminate].
  destruct (CreatePath _ _ _) as [path|e]; [|discriminate].
  destruct (NewRequest_check _ _); [discriminate|].
  intros [= <-]. cbn [URL]. exists (TrimLeft path "/"%char).
  now rewrite append_assoc.
Qed.

Lemma Perform_request_built (c : client) (work : Work) (w w' : World) (r : result Work)
    (a : nat) (req : Request) :
  Perform c work w = Returns r w' -> In (a, req) (requestsSince w w') ->
  exists body, Marshal_Work work = Ok body
               /\ CreateRequest (requestGenerator c) PerformRoute ∅ (Some body) = Ok req.
Proof.
  unfold Rep.Perform.
  destruct (Marshal_Work work) as [body|e];
    [|intros [= _ <-]; now rewrite requestsSince_refl].
  destruct (Rata.CreateRequest _ _ _ _ _ _) as [req0|e] eqn:Hreq;
    [|intros [= _ <-]; now rewrite requestsSince_refl].
  destruct (Do (client_ c) req0 w) as [[resp|e] w1|] eqn:HDo; [| |discriminate];
    destruct (Do_requests _ _ _ _ _ HDo) as (a0 & hc & Ha & _ & _ & ->); intros H.
  - assert (requestsSince w w' = [(a0, req0)]) as ->.
    { destruct (negb _); [|destruct (decode_Work _)]; injection H as _ <-;
        now rewrite requestsSince_emit2, requests_bodyClose. }
    intros [[= _ <-]|[]]. eauto.
  - injection H as _ <-. rewrite requestsSince_emit. intros [[= _ <-]|[]]. eauto.
Qed.

(** Every request of every method is addressed to the host of the
    client's request generator. *)
Lemma requests_go_to_the_host (c : client) (w : World) :
  let to_host (req : Request) := HasPrefix (URL req) (host (requestGenerator c) ++ "/") in
  (forall r w' a req, State c w = Returns r w' ->
     In (a, req) (requestsSince w w') -> to_host req)
  /\ (forall work r w' a req, Perform c work w = Returns r w' ->
        In (a, req) (requestsSince w w') -> to_host req)
  /\ (forall key instanceKey r w' a req, StopLRPInstance c key instanceKey w = Returns r w' ->
        In (a, req) (requestsSince w w') -> to_host req)
  /\ (forall taskGuid r w' a req, CancelTask c taskGuid w = Returns r w' ->
        In (a, req) (requestsSince w w') -> to_host req)
  /\ (forall r w' a req, Reset c w = Returns r w' ->
        In (a, req) (requestsSince w w') -> to_host req).
Proof.
  cbn zeta. split; [|split; [|split; [|split]]].
  - intros r w' a req Hrun Hin.
    pose proof (State_requests url_Parse_String NewRequest_check CellState decode_CellState
                  _ _ _ _ Hrun) as Hs.
    destruct (Rata.CreateRequest _ _ _ _ _ _) as [req0|e] eqn:Hreq.
    + destruct Hs as (a0 & _ & Hs). rewrite Hs in Hin.
      destruct Hin as [[= _ <-]|[]]. exact (CreateRequest_host _ _ _ _ _ Hreq).
    + rewrite Hs in Hin. destruct Hin.
  - intros work r w' a req Hrun Hin.
    destruct (Perform_request_built _ _ _ _ _ _ _ Hrun Hin) as (body & _ & Hreq).
    exact (CreateRequest_host _ _ _ _ _ Hreq).
  - intros key instanceKey r w' a req Hrun Hin. unfold Rep.StopLRPInstance in Hrun.
    destruct (Rata.CreateRequest _ _ _ _ _ _) as [req0|e] eqn:Hreq.
    + destruct (send_requests _ _ _ _ _ _ _ Hrun) as (a0 & _ & Hs). rewrite Hs in Hin.
      destruct Hin as [[= _ <-]|[]]. cbn [Header_Set URL].
      exact (CreateRequest_host _ _ _ _ _ Hreq).
    + injection Hrun as _ <-. rewrite requestsSince_refl in Hin. destruct Hin.
  - intros taskGuid r w' a req Hrun Hin. unfold Rep.CancelTask in Hrun.
    destruct (Rata.CreateRequest _ _ _ _ _ _) as [req0|e] eqn:Hreq.
    + destruct (send_requests _ _ _ _ _ _ _ Hrun) as (a0 & _ & Hs). rewrite Hs in Hin.
      destruct Hin as [[= _ <-]|[]]. exact (CreateRequest_host _ _ _ _ _ Hreq).
    + injection Hrun as _ <-. rewrite requestsSince_refl in Hin. destruct Hin.
  - intros r w' a req Hrun Hin. unfold Rep.Reset in Hrun.
    destruct (Rata.CreateRequest _ _ _ _ _ _) as [req0|e] eqn:Hreq.
    + destruct (send_requests _ _ _ _ _ _ _ Hrun) as (a0 & _ & Hs). rewrite Hs in Hin.
      destruct Hin as [[= _ <-]|[]]. exact (CreateRequest_host _ _ _ _ _ Hreq).
    + injection Hrun as _ <-. rewrite requestsSince_refl in Hin. destruct Hin.
Qed.

(** X9. A client made by [NewClient] or by a factory's [CreateClient]
    sends every request of every method to the address it was created
    for: the URL starts with that address and a slash. *)
Theorem requests_go_to_the_address (factory : clientFactory) (address : string)
    (w : World) :
  let c := CreateClient factory address in
  c = NewClient (f_httpClient factory) (f_stateClient factory) address
  /\ (forall r w' a req, State c w = Returns r w' ->
        In (a, req) (requestsSince w w') -> HasPrefix (URL req) (address ++ "/"))
  /\ (forall work r w' a req, Perform c work w = Returns r w' ->
        In (a, req) (requestsSince w w') -> HasPrefix (URL req) (address ++ "/"))
  /\ (forall key instanceKey r w' a req, StopLRPInstance c key instanceKey w = Returns r w' ->
        In (a, req) (requestsSince w w') -> HasPrefix (URL req) (address ++ "/"))
  /\ (forall taskGuid r w' a req, CancelTask c taskGuid w = Returns r w' ->
        In (a, req) (requestsSince w w') -> HasPrefix (URL req) (address ++ "/"))
  /\ (forall r w' a req, Reset c w = Returns r w' ->
        In (a, req) (requestsSince w w') -> HasPrefix (URL req) (address ++ "/")).
Proof.
  split; [reflexivity|].
  exact (requests_go_to_the_host (CreateClient factory address) w).
Qed.

(** [send] panics exactly on a nil regular client. *)
Lemma send_panics (c : client) (req : Request) (w : World) (expected : Z)
    (mkerr : Z -> error) :
  wellFormed c w ->
  (send c req w expected mkerr = Panics <-> client_ c = None).
Proof.
  intros [Hwf _]. unfold send, Do.
  destruct (client_ c) as [a|] eqn:Ha; [|split; reflexivity].
  destruct (Hwf a eq_refl) as [hc Hh]. rewrite Hh.
  destruct (RoundTrip hc req) as [resp|e]; [destruct (negb _)|]; split; discriminate.
Qed.

(** X10. With pointers that are nil or live, a method panics exactly when
    it gets as far as using a nil client: [State] when its request could
    be built and the state client is nil, [StateClientTimeout] when the
    state client is nil, and the methods of the regular client when
    their request could be built and the regular client is nil.  A
    request that cannot be built is reported as an error even then. *)
Theorem nil_client_panics (c : client) (w : World) :
  wellFormed c w ->
  (State c w = Panics <->
   (exists req, CreateRequest (requestGenerator c) StateRoute ∅ None = Ok req)
   /\ stateClient c = None)
  /\ (StateClientTimeout c w = Panics <-> stateClient c = None)
  /\ (forall key instanceKey,
        StopLRPInstance c key instanceKey w = Panics <->
        (exists req, CreateRequest (requestGenerator c) StopLRPInstanceRoute
                       (stopParamsFromLRP key instanceKey) None = Ok req)
        /\ client_ c = None)
  /\ (forall taskGuid,
        CancelTask c taskGuid w = Panics <->
        (exists req, CreateRequest (requestGenerator c) CancelTaskRoute
                       (cancelParams taskGuid) None = Ok req)
        /\ client_ c = None)
  /\ (Reset c w = Panics <->
      (exists req, CreateRequest (requestGenerator c) Sim_ResetRoute ∅ None = Ok req)
      /\ client_ c = None)
  /\ (forall work,
        Perform c work w = Panics <->
        (exists body req,
           Marshal_Work work = Ok body
           /\ CreateRequest (requestGenerator c) PerformRoute ∅ (Some body) = Ok req)
        /\ client_ c = None).
Proof.
  intros Hwf. pose proof Hwf as [Hreg Hst].
  split; [|split; [|split; [|split; [|split]]]].
  - unfold Rep.State, Do.
    destruct (Rata.CreateRequest _ _ _ _ _ _) as [req|e];
      [|split; [discriminate|intros [[req Hreq] _]; discriminate]].
    destruct (stateClient c) as [a|] eqn:Ha; [|split; eauto].
    destruct (Hst a eq_refl) as [hc Hh]. rewrite Hh.
    destruct (RoundTrip hc req) as [resp|e];
      [destruct (negb _); [|destruct (decode_CellState _)]|];
      (split; [discriminate|intros [_ Hnil]; discriminate]).
  - unfold StateClientTimeout.
    destruct (stateClient c) as [a|] eqn:Ha; [|split; reflexivity].
    destruct (Hst a eq_refl) as [hc Hh]. rewrite Hh. split; discriminate.
  - intros key instanceKey. unfold Rep.StopLRPInstance.
    destruct (Rata.CreateRequest _ _ _ _ _ _) as [req|e];
      [|split; [discriminate|intros [[req Hreq] _]; discriminate]].
    rewrite (send_panics c _ w _ _ Hwf). split; [eauto|tauto].
  - intros taskGuid. unfold Rep.CancelTask.
    destruct (Rata.CreateRequest _ _ _ _ _ _) as [req|e];
      [|split; [discriminate|intros [[req Hreq] _]; discriminate]].
    rewrite (send_panics c _ w _ _ Hwf). split; [eauto|tauto].
  - unfold Rep.Reset.
    destruct (Rata.CreateRequest _ _ _ _ _ _) as [req|e];
      [|split; [discriminate|intros [[req Hreq] _]; discriminate]].
    rewrite (send_panics c _ w _ _ Hwf). split; [eauto|tauto].
  - intros work. unfold Rep.Perform, Do.
    destruct (Marshal_Work work) as [body|e];
      [|split; [discriminate|intros [(body & req & Hm & _) _]; discriminate]].
    destruct (Rata.CreateRequest _ _ _ _ _ _) as [req|e] eqn:Hreq;
      [|split; [discriminate|intros [(body' & req & [= <-] & Hreq') _]; congruence]].
    destruct (client_ c) as [a|] eqn:Ha; [|split; eauto 6].
    destruct (Hreg a eq_refl) as [hc Hh]. rewrite Hh.
    destruct (RoundTrip hc req) as [resp|e'];
      [destruct (negb _); [|destruct (decode_Work _)]|];
      (split; [discriminate|intros [_ Hnil]; discriminate]).
Qed.

Lemma oneCall_refl (w : World) : oneCallAtMost w w.
Proof.
  split; [reflexivity|]. exists []. split; [now rewrite app_nil_r|]. cbn. lia.
Qed.

Lemma oneCall_Do (w : World) (a : nat) (req : Request) (p : ClientPtr) :
  oneCallAtMost w (emit w [EvDo a req])
  /\ oneCallAtMost w (emit (emit w [EvDo a req]) (bodyClose p)).
Proof.
  split.
  - split; [reflexivity|]. exists [EvDo a req]. split; [reflexivity|]. cbn. lia.
  - split; [reflexivity|]. exists ([EvDo a req] ++ bodyClose p)%list.
    split; [cbn [emit trace]; now rewrite <- app_assoc|].
    rewrite requests_bodyClose. cbn. lia.
Qed.

Lemma send_oneCall (c : client) (req : Request) (w w' : World) (expected : Z)
    (mkerr : Z -> error) (r : option error) :
  send c req w expected mkerr = Returns r w' -> oneCallAtMost w w'.
Proof.
  unfold send. destruct (Do (client_ c) req w) as [[resp|e] w1|] eqn:HDo; [| |discriminate];
    destruct (Do_requests _ _ _ _ _ HDo) as (a & hc & _ & _ & _ & ->); intros H.
  - destruct (negb _); injection H as _ <-; apply oneCall_Do.
  - injection H as _ <-. apply (oneCall_Do w a req None).
Qed.

(** X11. No method touches the HTTP clients themselves, none rewrites
    the history of calls, and none issues more than one request: there
    is no retry, whatever the answer; [StateClientTimeout] does nothing
    that can be observed. *)
Theorem methods_issue_one_request_at_most (c : client) (w : World) :
  (forall r w', State c w = Returns r w' -> oneCallAtMost w w')
  /\ (forall work r w', Perform c work w = Returns r w' -> oneCallAtMost w w')
  /\ (forall key instanceKey r w',
        StopLRPInstance c key instanceKey w = Returns r w' -> oneCallAtMost w w')
  /\ (forall taskGuid r w', CancelTask c taskGuid w = Returns r w' -> oneCallAtMost w w')
  /\ (forall r w', Reset c w = Returns r w' -> oneCallAtMost w w')
  /\ (forall timeout w', StateClientTimeout c w = Returns timeout w' -> w' = w).
Proof.
  split; [|split; [|split; [|split; [|split]]]].
  - intros r w'. unfold Rep.State.
    destruct (Rata.CreateRequest _ _ _ _ _ _) as [req|e];
      [|intros [= _ <-]; apply oneCall_refl].
    destruct (Do (stateClient c) req w) as [[resp|e] w1|] eqn:HDo; [| |discriminate];
      destruct (Do_requests _ _ _ _ _ HDo) as (a & hc & _ & _ & _ & ->); intros H.
    + destruct (negb _); [|destruct (decode_CellState _)]; injection H as _ <-;
        apply oneCall_Do.
    + injection H as _ <-. apply (oneCall_Do w a req None).
  - intros work r w'. unfold Rep.Perform.
    destruct (Marshal_Work work) as [body|e]; [|intros [= _ <-]; apply oneCall_refl].
    destruct (Rata.CreateRequest _ _ _ _ _ _) as [req|e];
      [|intros [= _ <-]; apply oneCall_refl].
    destruct (Do (client_ c) req w) as [[resp|e] w1|] eqn:HDo; [| |discriminate];
      destruct (Do_requests _ _ _ _ _ HDo) as (a & hc & _ & _ & _ & ->); intros H.
    + destruct (negb _); [|destruct (decode_Work _)]; injection H as _ <-;
        apply oneCall_Do.
    + injection H as _ <-. apply (oneCall_Do w a req None).
  - intros key instanceKey r w'. unfold Rep.StopLRPInstance.
    destruct (Rata.CreateRequest _ _ _ _ _ _) as [req|e];
      [apply send_oneCall|intros [= _ <-]; apply oneCall_refl].
  - intros taskGuid r w'. unfold Rep.CancelTask.
    destruct (Rata.CreateRequest _ _ _ _ _ _) as [req|e];
      [apply send_oneCall|intros [= _ <-]; apply oneCall_refl].
  - intros r w'. unfold Rep.Reset.
    destruct (Rata.CreateRequest _ _ _ _ _ _) as [req|e];
      [apply send_oneCall|intros [= _ <-]; apply oneCall_refl].
  - intros timeout w'. unfold StateClientTimeout.
    destruct (stateClient c) as [a|]; [|discriminate].
    destruct (heap w !! a); [|discriminate]. now intros [= _ <-].
Qed.

(** What [CreateRequest] puts into a request besides its URL. *)
Lemma CreateRequest_shape (g : RequestGenerator) (name : string) (params : Params)
    (body : option string) (req : Request) :
  CreateRequest g name params body = Ok req ->
  Body req = body /\ Header req = ((fun _ => []) <$> GHeader g) ∪ ∅.
Proof.
  unfold Rata.CreateRequest, NewRequest.
  destruct (FindRouteByName _ _) as [route|]; [|discriminate].
  destruct (CreatePath _ _ _) as [path|e]; [|discriminate].
  destruct (NewRequest_check _ _); [discriminate|].
  intros [= <-]. split; reflexivity.
Qed.

Lemma requests_shape (c : client) (w : World) :
  GHeader (requestGenerator c) = ∅ ->
  (forall r w' a req, State c w = Returns r w' ->
     In (a, req) (requestsSince w w') -> Header req = ∅ /\ Body req = None)
  /\ (forall work r w' a req, Perform c work w = Returns r w' ->
        In (a, req) (requestsSince w w') ->
        Header req = ∅ /\ exists body, Marshal_Work work = Ok body /\ Body req = Some body)
  /\ (forall key instanceKey r w' a req, StopLRPInstance c key instanceKey w = Returns r w' ->
        In (a, req) (requestsSince w w') ->
        Header req = {["Content-Type" := ["application/json"]]} /\ Body req = None)
  /\ (forall taskGuid r w' a req, CancelTask c taskGuid w = Returns r w' ->
        In (a, req) (requestsSince w w') -> Header req = ∅ /\ Body req = None)
  /\ (forall r w' a req, Reset c w = Returns r w' ->
        In (a, req) (requestsSince w w') -> Header req = ∅ /\ Body req = None).
Proof.
  intros Hempty.
  assert (forall name params body req,
            CreateRequest (requestGenerator c) name params body = Ok req ->
            Header req = ∅ /\ Body req = body) as Hshape.
  { intros name params body req H. apply CreateRequest_shape in H.
    destruct H as [Hb Hh]. split; [|assumption].
    rewrite Hh, Hempty, fmap_empty. apply (left_id_L ∅ (∪)). }
  split; [|split; [|split; [|split]]].
  - intros r w' a req Hrun Hin.
    pose proof (State_requests url_Parse_String NewRequest_check CellState decode_CellState
                  _ _ _ _ Hrun) as Hs.
    destruct (Rata.CreateRequest _ _ _ _ _ _) as [req0|e] eqn:Hreq.
    + destruct Hs as (a0 & _ & Hs). rewrite Hs in Hin.
      destruct Hin as [[= _ <-]|[]]. exact (Hshape _ _ _ _ Hreq).
    + rewrite Hs in Hin. destruct Hin.
  - intros work r w' a req Hrun Hin.
    destruct (Perform_request_built _ _ _ _ _ _ _ Hrun Hin) as (body & Hm & Hreq).
    destruct (Hshape _ _ _ _ Hreq) as [Hh Hb]. eauto.
  - intros key instanceKey r w' a req Hrun Hin. unfold Rep.StopLRPInstance in Hrun.
    destruct (Rata.CreateRequest _ _ _ _ _ _) as [req0|e] eqn:Hreq.
    + destruct (send_requests _ _ _ _ _ _ _ Hrun) as (a0 & _ & Hs). rewrite Hs in Hin.
      destruct Hin as [[= _ <-]|[]]. destruct (Hshape _ _ _ _ Hreq) as [Hh Hb].
      cbn [Header_Set Header Body]. rewrite Hh. split; [reflexivity|assumption].
    + injection Hrun as _ <-. rewrite requestsSince_refl in Hin. destruct Hin.
  - intros taskGuid r w' a req Hrun Hin. unfold Rep.CancelTask in Hrun.
    destruct (Rata.CreateRequest _ _ _ _ _ _) as [req0|e] eqn:Hreq.
    + destruct (send_requests _ _ _ _ _ _ _ Hrun) as (a0 & _ & Hs). rewrite Hs in Hin.
      destruct Hin as [[= _ <-]|[]]. exact (Hshape _ _ _ _ Hreq).
    + injection Hrun as _ <-. rewrite requestsSince_refl in Hin. destruct Hin.
  - intros r w' a req Hrun Hin. unfold Rep.Reset in Hrun.
    destruct (Rata.CreateRequest _ _ _ _ _ _) as [req0|e] eqn:Hreq.
    + destruct (send_requests _ _ _ _ _ _ _ Hrun) as (a0 & _ & Hs). rewrite Hs in Hin.
      destruct Hin as [[= _ <-]|[]]. exact (Hshape _ _ _ _ Hreq).
    + injection Hrun as _ <-. rewrite requestsSince_refl in Hin. destruct Hin.
Qed.

(** X12. On a client made by [NewClient], the request of [Perform]
    carries the marshalled work as its body and no header at all, not
    even a content type; the request of [StopLRPInstance] carries the
    one header [Content-Type: application/json] and no body; and the
    requests of [State], [CancelTask] and [Reset] carry neither. *)
Theorem request_headers_and_bodies (httpClient stateClient : ClientPtr)
    (address : string) (w : World) :
  let c := NewClient httpClient stateClient address in
  (forall r w' a req, State c w = Returns r w' ->
     In (a, req) (requestsSince w w') -> Header req = ∅ /\ Body req = None)
  /\ (forall work r w' a req, Perform c work w = Returns r w' ->
        In (a, req) (requestsSince w w') ->
        Header req = ∅ /\ exists body, Marshal_Work work = Ok body /\ Body req = Some body)
  /\ (forall key instanceKey r w' a req, StopLRPInstance c key instanceKey w = Returns r w' ->
        In (a, req) (requestsSince w w') ->
        Header req = {["Content-Type" := ["application/json"]]} /\ Body req = None)
  /\ (forall taskGuid r w' a req, CancelTask c taskGuid w = Returns r w' ->
        In (a, req) (requestsSince w w') -> Header req = ∅ /\ Body req = None)
  /\ (forall r w' a req, Reset c w = Returns r w' ->
        In (a, req) (requestsSince w w') -> Header req = ∅ /\ Body req = None).
Proof.
  exact (requests_shape (NewClient httpClient stateClient address) w eq_refl).
Qed.

End ClientCoverage.

(* ===================================================================== *)
(** ** Facts about the helper of cmd/rep/main_test.go *)
(* ===================================================================== *)

Section MainTestFacts.
Import MainTest.

(** The loop of [getTasksByState], started from any accumulator. *)
Lemma getTasksByState_loop (tasks acc : list Task) (state : Task_State) :
  fold_left (fun filteredTasks task =>
               if bool_decide (State task = state)
               then (filteredTasks ++ [task])%list
               else filteredTasks) tasks acc
  = (acc ++ List.filter (fun task => bool_decide (State task = state)) tasks)%list.
Proof.
  revert acc. induction tasks as [|t rest IH]; intros acc; cbn [fold_left List.filter].
  - now rewrite app_nil_r.
  - rewrite IH. destruct (bool_decide (State t = state)); [|reflexivity].
    now rewrite <- app_assoc.
Qed.

Lemma getTasksByState_filter (tasks : list Task) (state : Task_State) :
  getTasksByState tasks state
  = List.filter (fun task => bool_decide (State task = state)) tasks.
Proof. unfold getTasksByState. now rewrite getTasksByState_loop. Qed.

(** X13. [getTasksByState] returns exactly the listed tasks that are in
    the state asked for, in the order of the listing and as often as
    they are listed; selecting again for the same state changes nothing,
    and selecting for another state leaves nothing. *)
Theorem getTasksByState_selects (tasks : list Task) (state : Task_State) :
  (forall task, In task (getTasksByState tasks state) <->
                In task tasks /\ State task = state)
  /\ getTasksByState tasks state `sublist_of` tasks
  /\ (forall more, getTasksByState (tasks ++ more) state
                   = (getTasksByState tasks state ++ getTasksByState more state)%list)
  /\ getTasksByState (getTasksByState tasks state) state = getTasksByState tasks state
  /\ (forall other, other <> state ->
                    getTasksByState (getTasksByState tasks state) other = []).
Proof.
  rewrite !getTasksByState_filter. split; [|split; [|split; [|split]]].
  - intros task. rewrite List.filter_In. now rewrite bool_decide_eq_true.
  - induction tasks as [|t rest IH]; cbn [List.filter]; [constructor|].
    destruct (bool_decide (State t = state)); [now apply sublist_skip|now apply sublist_cons].
  - intros more. rewrite !getTasksByState_filter. apply List.filter_app.
  - induction tasks as [|t rest IH]; cbn [List.filter]; [reflexivity|].
    destruct (bool_decide (State t = state)) eqn:Ht; [|exact IH].
    cbn [List.filter]. rewrite Ht. now f_equal.
  - intros other Hne. rewrite getTasksByState_filter.
    induction tasks as [|t rest IH]; cbn [List.filter]; [reflexivity|].
    destruct (bool_decide (State t = state)) eqn:Ht; [|exact IH].
    cbn [List.filter]. apply bool_decide_eq_true in Ht.
    destruct (bool_decide_reflect (State t = other)) as [Heq|_]; [congruence|exact IH].
Qed.

End MainTestFacts.

Section ClientCoverageExamples.
Import Rep Fixtures.

Local Abbreviation StopLRPInstance := (Rep.StopLRPInstance renderPath checkPasses statusText).
Local Abbreviation CancelTask := (Rep.CancelTask renderPath checkPasses statusText).
Local Abbreviation Reset := (Rep.Reset renderPath checkPasses).
Local Abbreviation State :=
  (Rep.State renderPath checkPasses unit (fun _ : string => Ok tt)).
Local Abbreviation Perform :=
  (Rep.Perform renderPath checkPasses string (fun s : string => Ok s)
     (fun s : string => Ok s)).

(** "when the connection fails": the error of the transport comes back,
    after the one request, from both clients. *)
Lemma transport_error_is_returned_witness :
  StopLRPInstance auctionClient someKey someInstanceKey brokenWorld
  = Returns (Some "EOF") (emit brokenWorld [EvDo 1%nat stopRequest])
  /\ CancelTask auctionClient "some-task-guid" brokenWorld
     = Returns (Some "EOF") (emit brokenWorld [EvDo 1%nat cancelRequest])
  /\ State auctionClient brokenWorld
     = Returns (Err "EOF") (emit brokenWorld [EvDo 2%nat stateRequest]).
Proof.
  pose proof (transport_error_is_returned renderPath checkPasses statusText unit string
                (fun _ => Ok tt) (fun s => Ok s) (fun s => Ok s)
                auctionClient brokenWorld 1%nat broken "EOF") as H1.
  pose proof (transport_error_is_returned renderPath checkPasses statusText unit string
                (fun _ => Ok tt) (fun s => Ok s) (fun s => Ok s)
                auctionClient brokenWorld 2%nat broken "EOF") as H2.
  destruct H1 as [H1 _]; [vm_compute; reflexivity|].
  destruct H2 as [_ H2]; [vm_compute; reflexivity|].
  destruct (H1 eq_refl) as (Hstop & Hcancel & _).
  split; [|split].
  - apply (Hstop someKey someInstanceKey
             {| Method := "POST"; URL := stopURL; Header := ∅; Body := None |});
      [vm_compute; reflexivity|reflexivity].
  - apply (Hcancel "some-task-guid" cancelRequest); [vm_compute; reflexivity|reflexivity].
  - apply (H2 eq_refl stateRequest); [vm_compute; reflexivity|reflexivity].
Defined.

(** "when the request returns 500": one request, one close. *)
Lemma response_body_is_closed_witness :
  exists r, StopLRPInstance auctionClient someKey someInstanceKey (world 500)
            = Returns r (emit (emit (world 500) [EvDo 1%nat stopRequest])
                              [EvBodyClose 1%nat]).
Proof.
  pose proof (response_body_is_closed renderPath checkPasses statusText unit string
                (fun _ => Ok tt) (fun s => Ok s) (fun s => Ok s)
                auctionClient (world 500) 1%nat (answering 0 500)
                {| StatusCode := 500; RespBody := "" |}) as H.
  destruct H as [H _]; [vm_compute; reflexivity|].
  destruct (H eq_refl) as (Hstop & _).
  apply (Hstop someKey someInstanceKey
           {| Method := "POST"; URL := stopURL; Header := ∅; Body := None |});
    [vm_compute; reflexivity|reflexivity].
Defined.

Lemma regular_client_responds (c : client) (status : Z) (req : Request) :
  client_ c = Some 1%nat -> responds c (world status) req status.
Proof.
  intros Hc. exists 1%nat, (answering 0 status), {| StatusCode := status; RespBody := "" |}.
  split; [assumption|]. split; [apply lookup_insert_eq|]. split; reflexivity.
Qed.

(** [Reset] against a server that answers 200, and one that answers 202. *)
Lemma Reset_status_witness :
  (exists w', Reset auctionClient (world 200) = Returns None w')
  /\ (exists w', Reset auctionClient (world 202)
                 = Returns (Some "unexpected status code: 202") w').
Proof.
  pose proof (Reset_status renderPath checkPasses auctionClient (world 200)) as H200.
  pose proof (Reset_status renderPath checkPasses auctionClient (world 202)) as H202.
  cbn zeta in H200, H202.
  destruct H200 as [[_ Hnil] _]. destruct H202 as (_ & _ & Hacc).
  split.
  - apply Hnil. eexists. split; [vm_compute; reflexivity|].
    apply regular_client_responds. reflexivity.
  - eapply Hacc; [vm_compute; reflexivity|].
    apply regular_client_responds. reflexivity.
Defined.

(** [State] against a server that answers 200, and one that answers 404. *)
Lemma State_result_witness :
  (exists w', State auctionClient (world 200) = Returns (Ok tt) w')
  /\ (exists w', State auctionClient (world 404)
                 = Returns (Err "unexpected status code: 404") w').
Proof.
  pose proof (State_result renderPath checkPasses unit (fun _ => Ok tt)
                auctionClient (world 200)) as H200.
  pose proof (State_result renderPath checkPasses unit (fun _ => Ok tt)
                auctionClient (world 404)) as H404.
  cbn zeta in H200, H404.
  destruct H200 as [Hok _]. destruct H404 as [_ Herr].
  split.
  - apply Hok.
    exists stateRequest, 2%nat, (answering (100 * millisecond) 200),
      {| StatusCode := 200; RespBody := "" |}.
    repeat split; vm_compute; reflexivity.
  - refine (proj1 (Herr stateRequest 2%nat (answering (100 * millisecond) 404)
                     {| StatusCode := 404; RespBody := "" |} _ _ _ _) _);
      vm_compute; first [reflexivity | discriminate].
Defined.

(** [Perform] with work that marshals, against a server that answers 200. *)
Lemma Perform_result_witness :
  exists w', Perform auctionClient "{}" (world 200) = Returns (Ok "") w'.
Proof.
  pose proof (Perform_result renderPath checkPasses string (fun s => Ok s) (fun s => Ok s)
                auctionClient (world 200) "{}") as [Hok _].
  apply Hok.
  exists "{}", {| Method := "POST"; URL := "http://127.0.0.1:1800/work";
                  Header := ∅; Body := Some "{}" |},
    1%nat, (answering 0 200), {| StatusCode := 200; RespBody := "" |}.
  repeat split; vm_compute; reflexivity.
Defined.


(** The client of client_test.go, made with a nil state client. *)
Lemma nil_client_panics_witness :
  State testClient (world 200) = Panics
  /\ StateClientTimeout testClient (world 200) = Panics.
Proof.
  pose proof (nil_client_panics renderPath checkPasses statusText unit string
                (fun _ => Ok tt) (fun s => Ok s) (fun s => Ok s)
                testClient (world 200)) as H.
  destruct H as (Hstate & Htimeout & _).
  - split.
    + intros a [= <-]. eexists. apply lookup_insert_eq.
    + intros a Ha. discriminate Ha.
  - split.
    + apply Hstate. split; [|reflexivity]. eexists. vm_compute. reflexivity.
    + apply Htimeout. reflexivity.
Defined.

End ClientCoverageExamples.
